(** * Sales-coaching worker: a shallow embedding and its properties

    The development follows the three source files of the worker:

    - [salesAgentDO.ts]: the per-session durable object [SalesAgent]
      (helpers [lastN], [safeJsonParse], [normalizeAIText], [extractBetween],
      [extractJsonObject]; methods [load], [save], [fetch]);
    - [workflows.ts]: [FinalizeCallWorkflow.run];
    - [index.ts]: the public [fetch] handler.

    JavaScript values are embedded as a data type [value]; a string is the
    list of its UTF-16 code units.  The platform services the code awaits
    (the inference binding [AI.run], the durable storage, the workflow
    binding) are external: what they answer is an input of the embedded
    functions, and every property quantifies over it. *)

From Stdlib Require Import ZArith NArith String Ascii List Bool Lia.
From stdpp Require Import gmap list.
Import ListNotations.

Local Open Scope Z_scope.

(** ** JavaScript strings *)

(** A string is its sequence of UTF-16 code units. *)
Abbreviation jsstring := (list N).

(** [js "abc"] is the string with the code units of an ASCII literal. *)
Definition js (s : string) : jsstring :=
  List.map N_of_ascii (list_ascii_of_string s).

(** The double quote, written by its code so that JSON texts can be
    spelled out. *)
Definition dquote : jsstring := [34%N].

(** [quoted "k"] is the JSON string literal of an ASCII word. *)
Definition quoted (s : string) : jsstring := dquote ++ js s ++ dquote.

(** [Array.prototype.slice] / [String.prototype.slice] with both bounds:
    a negative bound counts from the end, and both are clamped. *)
Definition slice {A : Type} (l : list A) (start stop : Z) : list A :=
  let len := Z.of_nat (length l) in
  let from := if start <? 0 then Z.max (len + start) 0 else Z.min start len in
  let to := if stop <? 0 then Z.max (len + stop) 0 else Z.min stop len in
  firstn (Z.to_nat (to - from)) (skipn (Z.to_nat from) l).

(** [slice] with the end bound left out. *)
Definition slice_from {A : Type} (l : list A) (start : Z) : list A :=
  slice l start (Z.of_nat (length l)).

(** [text.startsWith(pat)]. *)
Fixpoint startsWith (text pat : jsstring) {struct pat} : bool :=
  match pat, text with
  | [], _ => true
  | p :: pat', c :: text' => N.eqb p c && startsWith text' pat'
  | _ :: _, [] => false
  end.

(** First position at or after the current one where [pat] starts;
    [i] is the index of the head of [text] in the whole string. *)
Fixpoint indexOf_from (i : Z) (text pat : jsstring) : Z :=
  if startsWith text pat then i
  else match text with
       | [] => -1
       | _ :: rest => indexOf_from (i + 1) rest pat
       end.

(** [text.indexOf(pat)]: the first index, or -1. *)
Definition indexOf (text pat : jsstring) : Z := indexOf_from 0 text pat.

(** Last position at or after the current one where [pat] starts. *)
Fixpoint lastIndexOf_from (i : Z) (text pat : jsstring) : Z :=
  match text with
  | [] => if startsWith [] pat then i else -1
  | _ :: rest =>
      let later := lastIndexOf_from (i + 1) rest pat in
      if later =? -1 then (if startsWith text pat then i else -1) else later
  end.

(** [text.lastIndexOf(pat)]: the last index, or -1. *)
Definition lastIndexOf (text pat : jsstring) : Z := lastIndexOf_from 0 text pat.

(** ECMAScript's WhiteSpace and LineTerminator code units, the ones
    [String.prototype.trim] strips. *)
Definition isWhiteSpace (c : N) : bool :=
  ((9 <=? c) && (c <=? 13) || (c =? 32) || (c =? 160) || (c =? 5760)
   || (8192 <=? c) && (c <=? 8202) || (c =? 8232) || (c =? 8233)
   || (c =? 8239) || (c =? 8287) || (c =? 12288) || (c =? 65279))%N.

Fixpoint trimStart (text : jsstring) : jsstring :=
  match text with
  | c :: rest => if isWhiteSpace c then trimStart rest else text
  | [] => []
  end.

Definition trimEnd (text : jsstring) : jsstring := rev (trimStart (rev text)).

(** [text.trim()]. *)
Definition trim (text : jsstring) : jsstring := trimEnd (trimStart text).

(** ** JavaScript data values *)

(** The values the worker handles are plain data: what [JSON.parse]
    builds, plus [undefined].  A number literal is kept as the exact
    decimal [mantissa * 10 ^ exponent]; the rounding of a literal to a
    double is not represented.  An object keeps its properties in source
    order; when a key is repeated the last occurrence is the property's
    value, as [JSON.parse] has it. *)
#[warnings="-register-all"]
Inductive value : Type :=
| VUndefined
| VNull
| VBool (b : bool)
| VNum (mantissa exponent : Z)
| VStr (s : jsstring)
| VArr (items : list value)
| VObj (props : list (jsstring * value)).

(** An integer as a number value. *)
Definition VInt (n : Z) : value := VNum n 0.

(** Equality of code-unit strings as a boolean. *)
Fixpoint jsstring_eqb (a b : jsstring) : bool :=
  match a, b with
  | [], [] => true
  | x :: a', y :: b' => N.eqb x y && jsstring_eqb a' b'
  | _, _ => false
  end.

(** The value bound to [key] by the last matching property. *)
Fixpoint own_property (props : list (jsstring * value)) (key : jsstring)
  : option value :=
  match props with
  | [] => None
  | (k, v) :: rest =>
      match own_property rest key with
      | Some later => Some later
      | None => if jsstring_eqb k key then Some v else None
      end
  end.

(** [v.key] for a receiver that is neither [undefined] nor [null], and a
    key that is one of the identifiers the worker reads ([reply],
    [followUps], [length], the deal-memory keys, ...): an own property of
    an object, the [length] of a string or an array, [undefined]
    otherwise (none of those keys is inherited from a prototype). *)
Definition get_prop (v : value) (key : jsstring) : value :=
  match v with
  | VObj props =>
      match own_property props key with Some x => x | None => VUndefined end
  | VArr items =>
      if jsstring_eqb key (js "length") then VInt (Z.of_nat (length items))
      else VUndefined
  | VStr s =>
      if jsstring_eqb key (js "length") then VInt (Z.of_nat (length s))
      else VUndefined
  | _ => VUndefined
  end.

(** [v === undefined || v === null]. *)
Definition nullish (v : value) : bool :=
  match v with VUndefined | VNull => true | _ => false end.

(** [a ?? b]. *)
Definition coalesce (a b : value) : value := if nullish a then b else a.

(** [v?.key]. *)
Definition get_prop_opt (v : value) (key : jsstring) : value :=
  if nullish v then VUndefined else get_prop v key.

(** [ToBoolean]. *)
Definition truthy (v : value) : bool :=
  match v with
  | VUndefined | VNull => false
  | VBool b => b
  | VNum m _ => negb (m =? 0)
  | VStr s => match s with [] => false | _ => true end
  | VArr _ | VObj _ => true
  end.

(** [Array.isArray]. *)
Definition isArray (v : value) : bool :=
  match v with VArr _ => true | _ => false end.

(** [v === n] for an integer [n]. *)
Definition is_number (v : value) (n : Z) : bool :=
  match v with
  | VNum m e => if 0 <=? e then m * 10 ^ e =? n else m =? n * 10 ^ (- e)
  | _ => false
  end.

(** ** [JSON.parse]

    The platform's parser, written out after the JSON grammar (ECMA-404):
    insignificant white space, the three literals, numbers, strings with
    their escapes, arrays and objects.  [None] stands for the
    [SyntaxError] it throws. *)

Definition is_json_ws (c : N) : bool :=
  ((c =? 32) || (c =? 9) || (c =? 10) || (c =? 13))%N.

Fixpoint skip_ws (s : jsstring) : jsstring :=
  match s with
  | c :: rest => if is_json_ws c then skip_ws rest else s
  | [] => []
  end.

Definition digit_of (c : N) : option Z :=
  if ((48 <=? c) && (c <=? 57))%N then Some (Z.of_N c - 48) else None.

Definition hex_of (c : N) : option N :=
  if ((48 <=? c) && (c <=? 57))%N then Some (c - 48)%N
  else if ((97 <=? c) && (c <=? 102))%N then Some (c - 87)%N
  else if ((65 <=? c) && (c <=? 70))%N then Some (c - 55)%N
  else None.

Definition hex4 (a b c d : N) : option N :=
  match hex_of a, hex_of b, hex_of c, hex_of d with
  | Some x, Some y, Some z, Some w => Some (((x * 16 + y) * 16 + z) * 16 + w)%N
  | _, _, _, _ => None
  end.

(** The code unit a one-letter escape stands for. *)
Definition simple_escape (e : N) : option N :=
  if (e =? 34)%N then Some 34%N          (* the quote *)
  else if (e =? 92)%N then Some 92%N     (* the backslash *)
  else if (e =? 47)%N then Some 47%N     (* the slash *)
  else if (e =? 98)%N then Some 8%N      (* b: backspace *)
  else if (e =? 102)%N then Some 12%N    (* f: form feed *)
  else if (e =? 110)%N then Some 10%N    (* n: line feed *)
  else if (e =? 114)%N then Some 13%N    (* r: carriage return *)
  else if (e =? 116)%N then Some 9%N     (* t: tab *)
  else None.

(** The characters of a string literal after its opening quote, up to and
    including the closing quote. *)
Fixpoint parse_string_chars (s acc : jsstring) : option (jsstring * jsstring) :=
  match s with
  | [] => None
  | c :: r =>
      if (c =? 34)%N then Some (rev acc, r)
      else if (c =? 92)%N then
        match r with
        | [] => None
        | e :: r' =>
            if (e =? 117)%N then
              match r' with
              | h1 :: h2 :: h3 :: h4 :: r'' =>
                  match hex4 h1 h2 h3 h4 with
                  | Some u => parse_string_chars r'' (u :: acc)
                  | None => None
                  end
              | _ => None
              end
            else
              match simple_escape e with
              | Some u => parse_string_chars r' (u :: acc)
              | None => None
              end
        end
      else if (c <? 32)%N then None
      else parse_string_chars r (c :: acc)
  end.

(** A maximal run of decimal digits: the number read so far, how many
    digits were read, and the rest of the text. *)
Fixpoint read_digits (acc count : Z) (s : jsstring) : Z * Z * jsstring :=
  match s with
  | c :: r =>
      match digit_of c with
      | Some d => read_digits (acc * 10 + d) (count + 1) r
      | None => (acc, count, s)
      end
  | [] => (acc, count, [])
  end.

Definition eat (c : N) (s : jsstring) : option jsstring :=
  match s with
  | x :: r => if (x =? c)%N then Some r else None
  | [] => None
  end.

(** [-? int frac? exp?], an integer part having no leading zero. *)
Definition parse_number (s : jsstring) : option (value * jsstring) :=
  let '(negative, s1) :=
    match eat 45 s with Some r => (true, r) | None => (false, s) end in
  match s1 with
  | [] => None
  | c :: r =>
      match digit_of c with
      | None => None
      | Some d =>
          let '(int, _, s2) := if d =? 0 then (0, 1, r) else read_digits 0 0 s1 in
          let fraction :=
            match eat 46 s2 with
            | Some r2 =>
                let '(m, n, s3) := read_digits int 0 r2 in
                if n =? 0 then None else Some (m, n, s3)
            | None => Some (int, 0, s2)
            end in
          match fraction with
          | None => None
          | Some (m, n, s3) =>
              let exponent :=
                match s3 with
                | x :: r3 =>
                    if ((x =? 101) || (x =? 69))%N then
                      let '(sign, r4) :=
                        match eat 43 r3, eat 45 r3 with
                        | Some r', _ => (1, r')
                        | None, Some r' => (-1, r')
                        | None, None => (1, r3)
                        end in
                      let '(e, k, s4) := read_digits 0 0 r4 in
                      if k =? 0 then None else Some (sign * e, s4)
                    else Some (0, s3)
                | [] => Some (0, s3)
                end in
              match exponent with
              | None => None
              | Some (e, s4) => Some (VNum (if negative then - m else m) (e - n), s4)
              end
          end
      end
  end.

Fixpoint parse_value (fuel : nat) (s : jsstring) : option (value * jsstring) :=
  match fuel with
  | O => None
  | S fuel' =>
      match skip_ws s with
      | [] => None
      | c :: r =>
          if (c =? 123)%N then
            match skip_ws r with
            | [] => None
            | d :: r' =>
                if (d =? 125)%N then Some (VObj [], r')
                else parse_members fuel' (d :: r') []
            end
          else if (c =? 91)%N then
            match skip_ws r with
            | [] => None
            | d :: r' =>
                if (d =? 93)%N then Some (VArr [], r')
                else parse_elements fuel' (d :: r') []
            end
          else if (c =? 34)%N then
            match parse_string_chars r [] with
            | Some (str, r') => Some (VStr str, r')
            | None => None
            end
          else if startsWith (c :: r) (js "true") then
            Some (VBool true, skipn 4 (c :: r))
          else if startsWith (c :: r) (js "false") then
            Some (VBool false, skipn 5 (c :: r))
          else if startsWith (c :: r) (js "null") then
            Some (VNull, skipn 4 (c :: r))
          else parse_number (c :: r)
      end
  end
with parse_elements (fuel : nat) (s : jsstring) (acc : list value)
  : option (value * jsstring) :=
  match fuel with
  | O => None
  | S fuel' =>
      match parse_value fuel' s with
      | None => None
      | Some (v, r) =>
          match skip_ws r with
          | [] => None
          | d :: r' =>
              if (d =? 44)%N then parse_elements fuel' r' (v :: acc)
              else if (d =? 93)%N then Some (VArr (rev (v :: acc)), r')
              else None
          end
      end
  end
with parse_members (fuel : nat) (s : jsstring) (acc : list (jsstring * value))
  : option (value * jsstring) :=
  match fuel with
  | O => None
  | S fuel' =>
      match eat 34 (skip_ws s) with
      | None => None
      | Some r =>
          match parse_string_chars r [] with
          | None => None
          | Some (key, r1) =>
              match eat 58 (skip_ws r1) with
              | None => None
              | Some r2 =>
                  match parse_value fuel' r2 with
                  | None => None
                  | Some (v, r3) =>
                      match skip_ws r3 with
                      | [] => None
                      | e :: r4 =>
                          if (e =? 44)%N then
                            parse_members fuel' r4 ((key, v) :: acc)
                          else if (e =? 125)%N then
                            Some (VObj (rev ((key, v) :: acc)), r4)
                          else None
                      end
                  end
              end
          end
      end
  end.

(** [JSON.parse(text)].  Every recursive call follows the reading of at
    least one character every second step, so twice the length of the
    text is fuel enough. *)
Definition JSON_parse (text : jsstring) : option value :=
  match parse_value (2 * length text + 2) text with
  | Some (v, rest) =>
      match skip_ws rest with
      | [] => Some v
      | _ :: _ => None
      end
  | None => None
  end.

(** ** Helper functions of [salesAgentDO.ts] *)

(** [lastN(arr, n)]: [arr.slice(Math.max(0, arr.length - n))]. *)
Definition lastN {A : Type} (arr : list A) (n : Z) : list A :=
  slice_from arr (Z.max 0 (Z.of_nat (length arr) - n)).

(** [safeJsonParse(text)]: the parsed value, [null] when [JSON.parse]
    throws. *)
Definition safeJsonParse (text : jsstring) : value :=
  match JSON_parse text with
  | Some v => v
  | None => VNull
  end.

(** What [AI.run] resolves to, as far as [normalizeAIText] inspects it.
    For an object: each field that is a string ([typeof ... === "string"]),
    and what [JSON.stringify] makes of the whole ([None] when it throws).
    A truthy number or boolean is an object with no string field. *)
Record AIObject : Type := {
  ai_response : option jsstring;         (* output.response *)
  ai_output_text : option jsstring;      (* output.output_text *)
  ai_result_response : option jsstring;  (* output.result?.response *)
  ai_stringified : option jsstring       (* JSON.stringify(output) *)
}.

Inductive AIOutput : Type :=
| AIFalsy                    (* undefined, null, the empty string, 0, false *)
| AIString (s : jsstring)    (* a string *)
| AIObj (o : AIObject).

(** One call of [env.AI.run]: it throws or it returns. *)
Inductive AIResult : Type :=
| AIThrows
| AIReturns (output : AIOutput).

(** [normalizeAIText(output)]. *)
Definition normalizeAIText (output : AIOutput) : jsstring :=
  match output with
  | AIFalsy => []
  | AIString s => s
  | AIObj o =>
      match ai_response o with
      | Some s => s
      | None =>
          match ai_output_text o with
          | Some s => s
          | None =>
              match ai_result_response o with
              | Some s => s
              | None =>
                  match ai_stringified o with
                  | Some s => s
                  | None => []
                  end
              end
          end
      end
  end.

(** [extractBetween(text, startTag, endTag)]. *)
Definition extractBetween (text startTag endTag : jsstring) : option jsstring :=
  let startIndex := indexOf text startTag in
  let endIndex := lastIndexOf text endTag in
  if (startIndex =? -1) || (endIndex =? -1) || (endIndex <=? startIndex)
  then None
  else Some (trim (slice text (startIndex + Z.of_nat (length startTag)) endIndex)).

(** [extractJsonObject(text)]. *)
Definition extractJsonObject (text : jsstring) : option jsstring :=
  let start := indexOf text (js "{") in
  let stop := lastIndexOf text (js "}") in
  if (start =? -1) || (stop =? -1) || (stop <=? start)
  then None
  else Some (slice text start (stop + 1)).

(** [a ?? b] on a [string | null]. *)
Definition or_else (a b : option jsstring) : option jsstring :=
  match a with
  | Some _ => a
  | None => b
  end.

(** [jsonStr || ""] on a [string | null]. *)
Definition or_empty (a : option jsstring) : jsstring :=
  match a with
  | Some s => s
  | None => []
  end.

(** The two-stage extraction both handlers of the durable object use:
    [extractBetween(raw, "<json>", "</json>") ?? extractJsonObject(raw)]
    and [jsonStr || ""] give the text ([tagged_json]) that
    [safeJsonParse] is applied to. *)
Definition tagged_json (raw : jsstring) : jsstring :=
  or_empty (or_else (extractBetween raw (js "<json>") (js "</json>"))
                    (extractJsonObject raw)).

Definition parseTagged (raw : jsstring) : value :=
  safeJsonParse (tagged_json raw).

(** Whether [ToString(v)] completes, as a template literal [`${v}`]
    needs.  On data it throws a [TypeError] in one case only: an object
    with an own property [toString] (never callable, as it is data) has
    no usable conversion; an array converts its elements in turn. *)
Fixpoint renders (v : value) : bool :=
  match v with
  | VArr items => forallb renders items
  | VObj props =>
      match own_property props (js "toString") with
      | Some _ => false
      | None => true
      end
  | _ => true
  end.

(** ** Session state ([salesAgentDO.ts], lines 4-39) *)

Inductive Role : Type := user | assistant.

Record Message : Type := { role : Role; content : value }.

(** [DealMemory].  The field types of the source are erased at run time:
    a field holds whatever value was assigned to it. *)
Record DealMemory : Type := {
  customerName : value;
  company : value;
  industry : value;
  painPoints : value;
  budget : value;
  timeline : value;
  objections : value;
  nextSteps : value
}.

Definition DEFAULT_DEAL_MEMORY : DealMemory := {|
  customerName := VStr [];
  company := VStr [];
  industry := VStr [];
  painPoints := VArr [];
  budget := VStr [];
  timeline := VStr [];
  objections := VArr [];
  nextSteps := VArr []
|}.

(** A stored [dealMemory] object: each key present or not. *)
Record PartialDealMemory : Type := {
  has_customerName : option value;
  has_company : option value;
  has_industry : option value;
  has_painPoints : option value;
  has_budget : option value;
  has_timeline : option value;
  has_objections : option value;
  has_nextSteps : option value
}.

(** The record under the storage key ["state"]: a
    [Partial<AgentState>].  [None] is a field that is missing or fails
    the test [load] applies to it ([Array.isArray], [typeof ... ===
    "number"], truthiness of [dealMemory]). *)
Record StoredState : Type := {
  stored_messages : option (list Message);
  stored_dealMemory : option PartialDealMemory;
  stored_rollingSummary : value;
  stored_userTurnCount : option Z;
  stored_final : value
}.

(** Everything the worker's code can touch in one isolate:
    - [DEFAULT_STATE_messages]: the array [DEFAULT_STATE.messages], a
      module-level object of [salesAgentDO.ts] shared by every state that
      [load] builds from the defaults;
    - [objects]: the storage of each [SalesAgent] object, by the name
      its id was derived from ([idFromName]); an object whose storage
      holds no ["state"] key is absent;
    - [FINALIZE_CALL]: the payload session ids of the workflow instances
      created so far, latest first. *)
Record System : Type := {
  DEFAULT_STATE_messages : list Message;
  objects : gmap jsstring StoredState;
  FINALIZE_CALL : list value
}.

(** The [messages] array of an in-flight [AgentState] is a reference:
    either to the shared default array or to an array of its own (the
    copy the storage handed out). *)
Inductive MessagesRef : Type :=
| SharedDefault
| Own (items : list Message).

Record AgentState : Type := {
  messages : MessagesRef;
  dealMemory : DealMemory;
  rollingSummary : value;
  userTurnCount : Z;
  final : value
}.

(** The array a reference designates. *)
Definition deref (sys : System) (r : MessagesRef) : list Message :=
  match r with
  | SharedDefault => DEFAULT_STATE_messages sys
  | Own items => items
  end.

(** ** Effects

    A handler runs over the [System] and either returns or throws; what
    it did to the system before throwing stays done. *)

Inductive outcome (A : Type) : Type :=
| Returned (a : A)
| Thrown.
Arguments Returned {A} a.
Arguments Thrown {A}.

Definition Eff (A : Type) : Type := System -> outcome A * System.

Definition ret {A : Type} (a : A) : Eff A := fun sys => (Returned a, sys).

Definition throw {A : Type} : Eff A := fun sys => (Thrown, sys).

Definition bind {A B : Type} (m : Eff A) (k : A -> Eff B) : Eff B :=
  fun sys =>
    match m sys with
    | (Returned a, sys') => k a sys'
    | (Thrown, sys') => (Thrown, sys')
    end.

Notation "'let!' x := m 'in' k" := (bind m (fun x => k))
  (at level 10, x name, m at level 100, k at level 200).
Notation "'do!' m 'in' k" := (bind m (fun _ => k))
  (at level 10, m at level 100, k at level 200).

(** Read the system. *)
Definition gets {A : Type} (f : System -> A) : Eff A :=
  fun sys => (Returned (f sys), sys).

(** Throw unless [ok]. *)
Definition guard (ok : bool) : Eff unit :=
  if ok then ret tt else throw.

(** [try { body } catch { handler }]. *)
Definition try_catch {A : Type} (body handler : Eff A) : Eff A :=
  fun sys =>
    match body sys with
    | (Returned a, sys') => (Returned a, sys')
    | (Thrown, sys') => handler sys'
    end.

(** [await env.AI.run(...)], given what the call does. *)
Definition AI_run (r : AIResult) : Eff AIOutput :=
  match r with
  | AIThrows => throw
  | AIReturns output => ret output
  end.

(** ** The durable object [SalesAgent] *)

(** HTTP responses: a status and a plain-text or JSON body. *)
Inductive Body : Type :=
| Text (s : jsstring)
| Json (v : value).

Record Response : Type := { status : Z; body : Body }.

(** [Response.json(v)]. *)
Definition Response_json (v : value) : Response :=
  {| status := 200; body := Json v |}.

(** [new Response(text, { status })]. *)
Definition Response_text (text : jsstring) (code : Z) : Response :=
  {| status := code; body := Text text |}.

(** The property [key] of a JSON response body. *)
Definition response_field (r : Response) (key : jsstring) : value :=
  match body r with
  | Json v => get_prop_opt v key
  | Text _ => VUndefined
  end.

(** A request as the object receives it: [request.json()] resolves to
    [json_body], and rejects when there is none. *)
Record DORequest : Type := {
  pathname : jsstring;
  method : jsstring;
  json_body : option value
}.

(** What the platform does during one request to the object: the two
    inference calls ([ai_memory] is consumed on a memory turn only), and
    whether the storage accepts the write ([storage.put] rejects, for
    one, a value over its size limit).  Reading the object's own storage
    is taken to succeed. *)
Record DOEnv : Type := {
  ai_reply : AIResult;
  ai_memory : AIResult;
  put_ok : bool
}.

(** [{ ...DEFAULT_DEAL_MEMORY, ...(stored.dealMemory || {}) }]. *)
Definition spread_DealMemory (base : DealMemory) (over : PartialDealMemory)
  : DealMemory := {|
  customerName := default (customerName base) (has_customerName over);
  company := default (company base) (has_company over);
  industry := default (industry base) (has_industry over);
  painPoints := default (painPoints base) (has_painPoints over);
  budget := default (budget base) (has_budget over);
  timeline := default (timeline base) (has_timeline over);
  objections := default (objections base) (has_objections over);
  nextSteps := default (nextSteps base) (has_nextSteps over)
|}.

(** The empty object [{}] as a stored deal memory. *)
Definition no_fields : PartialDealMemory := {|
  has_customerName := None; has_company := None; has_industry := None;
  has_painPoints := None; has_budget := None; has_timeline := None;
  has_objections := None; has_nextSteps := None
|}.

(** [DEFAULT_STATE], copied shallowly: its [messages] is the shared
    array, not a copy of it. *)
Definition DEFAULT_STATE : AgentState := {|
  messages := SharedDefault;
  dealMemory := DEFAULT_DEAL_MEMORY;
  rollingSummary := VStr [];
  userTurnCount := 0;
  final := VUndefined
|}.

(** The state [load] builds from what [storage.get("state")] resolved
    to (lines 91-103). *)
Definition from_storage (stored : option StoredState) : AgentState :=
  match stored with
  | None => DEFAULT_STATE
  | Some stored => {|
      messages :=
        match stored_messages stored with
        | Some items => Own items
        | None => messages DEFAULT_STATE
        end;
      dealMemory :=
        spread_DealMemory DEFAULT_DEAL_MEMORY
          (default no_fields (stored_dealMemory stored));
      rollingSummary :=
        coalesce (stored_rollingSummary stored) (rollingSummary DEFAULT_STATE);
      userTurnCount :=
        default (userTurnCount DEFAULT_STATE) (stored_userTurnCount stored);
      final := stored_final stored
    |}
  end.

(** [this.load()] (lines 89-104). *)
Definition load (self : jsstring) : Eff AgentState :=
  gets (fun sys => from_storage (objects sys !! self)).

(** A full deal memory as the stored object it becomes. *)
Definition all_fields (dm : DealMemory) : PartialDealMemory := {|
  has_customerName := Some (customerName dm);
  has_company := Some (company dm);
  has_industry := Some (industry dm);
  has_painPoints := Some (painPoints dm);
  has_budget := Some (budget dm);
  has_timeline := Some (timeline dm);
  has_objections := Some (objections dm);
  has_nextSteps := Some (nextSteps dm)
|}.

(** The copy of [s] the storage keeps (a structured clone: the array the
    reference designates at the time of the call). *)
Definition stored_of (sys : System) (s : AgentState) : StoredState := {|
  stored_messages := Some (deref sys (messages s));
  stored_dealMemory := Some (all_fields (dealMemory s));
  stored_rollingSummary := rollingSummary s;
  stored_userTurnCount := Some (userTurnCount s);
  stored_final := final s
|}.

(** [this.save(s)] (lines 106-108): [storage.put("state", s)]. *)
Definition save (self : jsstring) (accepted : bool) (s : AgentState) : Eff unit :=
  fun sys =>
    if accepted then
      (Returned tt,
       {| DEFAULT_STATE_messages := DEFAULT_STATE_messages sys;
          objects := <[self := stored_of sys s]> (objects sys);
          FINALIZE_CALL := FINALIZE_CALL sys |})
    else (Thrown, sys).

(** [s.messages.push(m)]: the array is mutated in place, so a push
    through the shared reference changes [DEFAULT_STATE.messages]. *)
Definition push (s : AgentState) (m : Message) : Eff AgentState :=
  fun sys =>
    match messages s with
    | SharedDefault =>
        (Returned s,
         {| DEFAULT_STATE_messages := DEFAULT_STATE_messages sys ++ [m];
            objects := objects sys;
            FINALIZE_CALL := FINALIZE_CALL sys |})
    | Own items =>
        (Returned {| messages := Own (items ++ [m]);
                     dealMemory := dealMemory s;
                     rollingSummary := rollingSummary s;
                     userTurnCount := userTurnCount s;
                     final := final s |},
         sys)
    end.

(** [await request.json()]. *)
Definition request_json (req : DORequest) : Eff value :=
  match json_body req with
  | Some v => ret v
  | None => throw
  end.

(** [const { key } = v]: a [TypeError] on [undefined] and [null]. *)
Definition destructure (v : value) (key : jsstring) : Eff value :=
  if nullish v then throw else ret (get_prop v key).

Definition GENERIC_REPLY : jsstring :=
  js "I can help" ++ [8212%N]
  ++ js "can you tell me what price point you were expecting?".

Definition GENERIC_FOLLOWUPS : value :=
  VArr [VStr (js "What's driving that concern?");
        VStr (js "What would make this a clear yes for you?")].

Definition APOLOGY : jsstring :=
  js "I'm having trouble connecting. Could you repeat that?".

(** Step 5 of the chat handler, "Safe Parse" (lines 160-174): the reply
    and the follow-ups read off the model's answer. *)
Definition chat_parse (aiResp : AIOutput) : value * value :=
  let rawText := normalizeAIText aiResp in
  let parsed := parseTagged rawText in
  let parsed :=
    if negb (truthy parsed) && negb (startsWith (trim rawText) (js "{"))
    then VObj [(js "reply", VStr rawText); (js "followUps", VArr [])]
    else parsed in
  let reply := coalesce (get_prop_opt parsed (js "reply")) (VStr GENERIC_REPLY) in
  let followUps :=
    if is_number
         (get_prop_opt (get_prop_opt parsed (js "followUps")) (js "length")) 2
    then get_prop parsed (js "followUps")
    else GENERIC_FOLLOWUPS in
  (reply, followUps).

(** [Array.isArray(x) ? x : old]. *)
Definition array_or (x old : value) : value := if isArray x then x else old.

(** The object literal of lines 205-214. *)
Definition mergeDealMemory (memParsed : value) (dm : DealMemory) : DealMemory := {|
  customerName := coalesce (get_prop memParsed (js "customerName")) (customerName dm);
  company := coalesce (get_prop memParsed (js "company")) (company dm);
  industry := coalesce (get_prop memParsed (js "industry")) (industry dm);
  painPoints := array_or (get_prop memParsed (js "painPoints")) (painPoints dm);
  budget := coalesce (get_prop memParsed (js "budget")) (budget dm);
  timeline := coalesce (get_prop memParsed (js "timeline")) (timeline dm);
  objections := array_or (get_prop memParsed (js "objections")) (objections dm);
  nextSteps := array_or (get_prop memParsed (js "nextSteps")) (nextSteps dm)
|}.

(** The extraction result of a memory turn (lines 200-202). *)
Definition memParsed_of (memResp : AIOutput) : value :=
  parseTagged (normalizeAIText memResp).

(** Lines 204-216: [if (memParsed) { s.dealMemory = ...;
    s.rollingSummary = ... }]. *)
Definition memory_merge (memParsed : value) (s : AgentState) : AgentState :=
  if truthy memParsed then
    {| messages := messages s;
       dealMemory := mergeDealMemory memParsed (dealMemory s);
       rollingSummary :=
         coalesce (get_prop memParsed (js "rollingSummary")) (rollingSummary s);
       userTurnCount := userTurnCount s;
       final := final s |}
  else s.

(** [s.userTurnCount > 0 && s.userTurnCount % 3 === 0]. *)
Definition memory_turn (count : Z) : bool :=
  (0 <? count) && (Z.rem count 3 =? 0).

(** A deal memory as the JSON object of a response body. *)
Definition DealMemory_value (dm : DealMemory) : value :=
  VObj [(js "customerName", customerName dm);
        (js "company", company dm);
        (js "industry", industry dm);
        (js "painPoints", painPoints dm);
        (js "budget", budget dm);
        (js "timeline", timeline dm);
        (js "objections", objections dm);
        (js "nextSteps", nextSteps dm)].

(** Step 6 of the chat handler, "Periodic Memory Update" (lines
    176-217), on the state [s] of the turn. *)
Definition memory_step (env : DOEnv) (s : AgentState) : Eff AgentState :=
  if memory_turn (userTurnCount s) then
    do! guard (renders (rollingSummary s)) in
    let! memResp := AI_run (ai_memory env) in
    ret (memory_merge (memParsed_of memResp) s)
  else ret s.

(** The [try] block of [/internal/chat] (lines 116-229).  The prompt
    texts reach the model only; of their construction the handler's
    control flow sees whether the template literals can be rendered. *)
Definition chat_pipeline (self : jsstring) (req : DORequest) (env : DOEnv)
  : Eff Response :=
  let! parsed_body := request_json req in
  let! message := destructure parsed_body (js "message") in
  let! s := load self in
  (* 1. Update State *)
  let! s := push s {| role := user; content := message |} in
  let s := {| messages := messages s;
              dealMemory := dealMemory s;
              rollingSummary := rollingSummary s;
              userTurnCount := userTurnCount s + 1;
              final := final s |} in
  (* 2. Build Context; 3. prompts *)
  let! history := gets (fun sys => deref sys (messages s)) in
  let recent := lastN history 10 in
  do! guard (forallb (fun m => renders (content m)) recent) in
  do! guard (renders (if truthy (rollingSummary s) then rollingSummary s
                      else VStr (js "(none yet)"))) in
  (* 4. Run LLM *)
  let! aiResp := AI_run (ai_reply env) in
  (* 5. Safe Parse *)
  let reply := fst (chat_parse aiResp) in
  let followUps := snd (chat_parse aiResp) in
  (* 6. Periodic Memory Update (Every 3 turns) *)
  let! s := memory_step env s in
  (* 7. Save & Return *)
  let! s := push s {| role := assistant; content := reply |} in
  do! save self (put_ok env) s in
  ret (Response_json
         (VObj [(js "reply", reply);
                (js "followUps", followUps);
                (js "dealMemory", DealMemory_value (dealMemory s));
                (js "rollingSummary", rollingSummary s);
                (js "userTurnCount", VInt (userTurnCount s))])).

(** The [catch] block of [/internal/chat] (lines 231-240). *)
Definition chat_fallback (self : jsstring) : Eff Response :=
  let! s := load self in
  ret (Response_json
         (VObj [(js "reply", VStr APOLOGY);
                (js "followUps", VArr []);
                (js "dealMemory", DealMemory_value (dealMemory s));
                (js "rollingSummary", VStr []);
                (js "userTurnCount", VInt 0)])).

(** [/internal/chat]. *)
Definition chat (self : jsstring) (req : DORequest) (env : DOEnv) : Eff Response :=
  try_catch (chat_pipeline self req env) (chat_fallback self).

Definition Role_value (r : Role) : value :=
  match r with
  | user => VStr (js "user")
  | assistant => VStr (js "assistant")
  end.

(** A property list as [JSON.stringify] writes it: a property whose
    value is [undefined] is left out. *)
Definition defined_props (props : list (jsstring * value))
  : list (jsstring * value) :=
  List.filter (fun kv => match snd kv with VUndefined => false | _ => true end)
              props.

Definition Message_value (m : Message) : value :=
  VObj (defined_props [(js "role", Role_value (role m));
                       (js "content", content m)]).

(** The body of [Response.json(s)] for a loaded state. *)
Definition AgentState_value (history : list Message) (s : AgentState) : value :=
  VObj (defined_props
          [(js "messages", VArr (List.map Message_value history));
           (js "dealMemory", DealMemory_value (dealMemory s));
           (js "rollingSummary", rollingSummary s);
           (js "userTurnCount", VInt (userTurnCount s));
           (js "final", final s)]).

(** [/internal/state] (lines 244-247). *)
Definition get_state (self : jsstring) : Eff Response :=
  let! s := load self in
  let! history := gets (fun sys => deref sys (messages s)) in
  ret (Response_json (AgentState_value history s)).

(** [/internal/save-final] (lines 250-256). *)
Definition save_final (self : jsstring) (req : DORequest) (env : DOEnv)
  : Eff Response :=
  let! parsed_body := request_json req in
  let! new_final := destructure parsed_body (js "final") in
  let! s := load self in
  let s := {| messages := messages s;
              dealMemory := dealMemory s;
              rollingSummary := rollingSummary s;
              userTurnCount := userTurnCount s;
              final := new_final |} in
  do! save self (put_ok env) s in
  ret (Response_json (VObj [(js "ok", VBool true)])).

(** [/internal/reset] (lines 259-262): [storage.deleteAll()]. *)
Definition reset (self : jsstring) : Eff Response :=
  fun sys =>
    (Returned (Response_json (VObj [(js "ok", VBool true);
                                    (js "message", VStr (js "State reset"))])),
     {| DEFAULT_STATE_messages := DEFAULT_STATE_messages sys;
        objects := delete self (objects sys);
        FINALIZE_CALL := FINALIZE_CALL sys |}).

Definition NOT_FOUND : Response := Response_text (js "Not found") 404.

(** [SalesAgent.fetch] (lines 110-265), [self] being the name of the
    object whose storage [this.ctx.storage] is. *)
Definition SalesAgent_fetch (self : jsstring) (req : DORequest) (env : DOEnv)
  : Eff Response :=
  if jsstring_eqb (pathname req) (js "/internal/chat")
     && jsstring_eqb (method req) (js "POST")
  then chat self req env
  else if jsstring_eqb (pathname req) (js "/internal/state")
          && jsstring_eqb (method req) (js "GET")
  then get_state self
  else if jsstring_eqb (pathname req) (js "/internal/save-final")
          && jsstring_eqb (method req) (js "POST")
  then save_final self req env
  else if jsstring_eqb (pathname req) (js "/internal/reset")
          && jsstring_eqb (method req) (js "POST")
  then reset self
  else ret NOT_FOUND.

(** ** The finalization workflow ([workflows.ts])

    The file repeats [normalizeAIText] and [extractJsonObject] word for
    word; the definitions above stand for both copies. *)

(** [env.SALES_AGENT.idFromName(name)] followed by [get]: the object of
    that name.  The source passes a string; what the binding does with
    another value is the platform's, and the call is taken to throw. *)
Definition idFromName (name : value) : Eff jsstring :=
  match name with
  | VStr s => ret s
  | _ => throw
  end.

(** [await resp.json()] on a response of the object. *)
Definition response_json (r : Response) : Eff value :=
  match body r with
  | Json v => ret v
  | Text _ => throw
  end.

(** The environment of a request that makes no inference call. *)
Definition no_inference (accepted : bool) : DOEnv :=
  {| ai_reply := AIThrows; ai_memory := AIThrows; put_ok := accepted |}.

(** What the platform does during one run of the workflow: its three
    inference calls, and whether the object's storage accepts the final
    write. *)
Record WorkflowEnv : Type := {
  ai_summary : AIResult;
  ai_actions : AIResult;
  ai_email : AIResult;
  final_put_ok : bool
}.

(** [typeof v === "string"]. *)
Definition is_string (v : value) : bool :=
  match v with VStr _ => true | _ => false end.

(** Whether the transcript [convo] (lines 46-48) can be built from the
    state the object returned: [s.messages ?? []] must be an array whose
    members have a string [role] and a [content] that renders. *)
Definition convo_builds (s : value) : bool :=
  match coalesce (get_prop s (js "messages")) (VArr []) with
  | VArr ms =>
      forallb (fun m => negb (nullish m)
                        && is_string (get_prop m (js "role"))
                        && renders (get_prop m (js "content"))) ms
  | _ => false
  end.

(** The elements of an array, none for any other value. *)
Definition items_of (v : value) : list value :=
  match v with
  | VArr items => items
  | _ => []
  end.

(** The defensive parse of steps 1 and 2 (lines 62-71 and 85-94):
    [extractJsonObject(raw) ?? raw], then inside [try]
    [JSON.parse(...)] and [Array.isArray(parsed[key]) ? parsed[key] : []];
    the [catch] (a [SyntaxError], or the [TypeError] of reading a
    property of [null]) leaves the empty list.  [braced_json] is the
    text handed to [JSON.parse]. *)
Definition braced_json (resp : AIOutput) : jsstring :=
  let raw := normalizeAIText resp in
  match extractJsonObject raw with
  | Some obj => obj
  | None => raw
  end.

Definition parse_list (resp : AIOutput) (key : jsstring) : list value :=
  match JSON_parse (braced_json resp) with
  | None => []
  | Some parsed =>
      if nullish parsed then []
      else items_of (array_or (get_prop parsed key) (VArr []))
  end.

(** Whether step 2's prompt can be built: [`- ${b}`] for each bullet. *)
Definition actionPrompt_builds (summaryBullets : list value) : bool :=
  forallb renders summaryBullets.

(** Whether step 3's prompt can be built: [summaryBullets.join(" ")],
    and [`${a.owner}: ${a.item}`] for each action item ([a.owner] on
    [null] is a [TypeError]). *)
Definition emailPrompt_builds (summaryBullets actionItems : list value) : bool :=
  forallb renders summaryBullets
  && forallb (fun a => negb (nullish a)
                       && renders (get_prop a (js "owner"))
                       && renders (get_prop a (js "item"))) actionItems.

(** The object [final] of lines 111-115. *)
Definition Final_value (summaryBullets actionItems : list value)
  (followupEmail : jsstring) : value :=
  VObj [(js "summaryBullets", VArr (slice summaryBullets 0 6));
        (js "actionItems", VArr actionItems);
        (js "followupEmail", VStr followupEmail)].

(** [FinalizeCallWorkflow.run] (lines 32-125), given the payload's
    [sessionId]. *)
Definition FinalizeCallWorkflow_run (sessionId : value) (env : WorkflowEnv)
  : Eff value :=
  do! guard (truthy sessionId) in
  let! stub := idFromName sessionId in
  let! stateResp :=
    SalesAgent_fetch stub
      {| pathname := js "/internal/state"; method := js "GET"; json_body := None |}
      (no_inference (final_put_ok env)) in
  let! s := response_json stateResp in
  do! guard (negb (nullish s) && convo_builds s) in
  (* Step 1: Summary bullets *)
  let! sumResp := AI_run (ai_summary env) in
  let summaryBullets := parse_list sumResp (js "summaryBullets") in
  (* Step 2: Action items *)
  do! guard (actionPrompt_builds summaryBullets) in
  let! actResp := AI_run (ai_actions env) in
  let actionItems := parse_list actResp (js "actionItems") in
  (* Step 3: Follow-up email *)
  do! guard (emailPrompt_builds summaryBullets actionItems) in
  let! emailResp := AI_run (ai_email env) in
  let followupEmail := trim (normalizeAIText emailResp) in
  (* Save final output back into Durable Object *)
  do! SalesAgent_fetch stub
        {| pathname := js "/internal/save-final";
           method := js "POST";
           json_body :=
             Some (VObj [(js "final",
                          Final_value summaryBullets actionItems followupEmail)]) |}
        (no_inference (final_put_ok env)) in
  ret (VObj [(js "ok", VBool true); (js "sessionId", sessionId)]).

(** ** The front door ([index.ts]) *)

(** A public request: the path and method of its URL, what
    [request.json()] resolves to, and [url.searchParams.get("sessionId")]. *)
Record Request : Type := {
  url_pathname : jsstring;
  http_method : jsstring;
  request_body : option value;
  searchParams_sessionId : option jsstring
}.

(** What the platform does during one public request: the environment
    of the object it reaches, and the id of the workflow instance the
    workflow binding creates. *)
Record FetchEnv : Type := {
  object_env : DOEnv;
  instance_id : jsstring
}.

(** [await env.FINALIZE_CALL.create({ payload: { sessionId } })]: the
    instance is recorded, to be run later, and its id returned. *)
Definition FINALIZE_CALL_create (sessionId : value) (id : jsstring) : Eff jsstring :=
  fun sys =>
    (Returned id,
     {| DEFAULT_STATE_messages := DEFAULT_STATE_messages sys;
        objects := objects sys;
        FINALIZE_CALL := sessionId :: FINALIZE_CALL sys |}).

Definition internal (path verb : string) (payload : option value) : DORequest :=
  {| pathname := js path; method := js verb; json_body := payload |}.

(** Whether the request is for [verb path]. *)
Definition route (request : Request) (path verb : string) : bool :=
  jsstring_eqb (url_pathname request) (js path)
  && jsstring_eqb (http_method request) (js verb).

Definition USAGE : jsstring :=
  js "OK. Use POST /api/chat with JSON { sessionId, message }".

(** The default export's [fetch] (lines 7-86). *)
Definition fetch (request : Request) (env : FetchEnv) : Eff Response :=
  if route request "/api/chat" "POST" then
    let! parsed := (match request_body request with
                    | Some v => ret v
                    | None => throw
                    end) in
    do! guard (negb (nullish parsed)) in
    let sessionId := get_prop parsed (js "sessionId") in
    let message := get_prop parsed (js "message") in
    if negb (truthy sessionId) || negb (truthy message) then
      ret (Response_text (js "Missing sessionId or message") 400)
    else
      let! stub := idFromName sessionId in
      SalesAgent_fetch stub
        (internal "/internal/chat" "POST" (Some (VObj [(js "message", message)])))
        (object_env env)
  else if route request "/" "GET" then
    ret (Response_text USAGE 200)
  else if route request "/api/results" "GET" then
    match searchParams_sessionId request with
    | None | Some [] => ret (Response_text (js "Missing sessionId") 400)
    | Some sessionId =>
        SalesAgent_fetch sessionId (internal "/internal/state" "GET" None)
          (object_env env)
    end
  else if route request "/api/debug" "GET" then
    match searchParams_sessionId request with
    | None | Some [] => ret (Response_text (js "Missing sessionId") 400)
    | Some sessionId =>
        SalesAgent_fetch sessionId (internal "/internal/state" "GET" None)
          (object_env env)
    end
  else if route request "/api/end-call" "POST" then
    let! parsed := (match request_body request with
                    | Some v => ret v
                    | None => throw
                    end) in
    do! guard (negb (nullish parsed)) in
    let sessionId := get_prop parsed (js "sessionId") in
    if negb (truthy sessionId) then
      ret (Response_text (js "Missing sessionId") 400)
    else
      let! workflowId := FINALIZE_CALL_create sessionId (instance_id env) in
      ret (Response_json (VObj [(js "ok", VBool true);
                                (js "workflowId", VStr workflowId)]))
  else if route request "/api/reset" "POST" then
    let! parsed := (match request_body request with
                    | Some v => ret v
                    | None => throw
                    end) in
    do! guard (negb (nullish parsed)) in
    let sessionId := get_prop parsed (js "sessionId") in
    if negb (truthy sessionId) then
      ret (Response_text (js "Missing sessionId") 400)
    else
      let! stub := idFromName sessionId in
      SalesAgent_fetch stub (internal "/internal/reset" "POST" None)
        (object_env env)
  else ret NOT_FOUND.

(** * Vocabulary of the properties *)

(** ** Frames *)

(** A step that leaves the objects' storage and the created workflow
    instances alone. *)
Definition keeps_storage {A : Type} (m : Eff A) : Prop :=
  forall sys r sys', m sys = (r, sys') ->
    objects sys' = objects sys /\ FINALIZE_CALL sys' = FINALIZE_CALL sys.

(** A step that writes to the storage only when it returns. *)
Definition keeps_storage_on_throw {A : Type} (m : Eff A) : Prop :=
  forall sys sys', m sys = (Thrown, sys') ->
    objects sys' = objects sys /\ FINALIZE_CALL sys' = FINALIZE_CALL sys.

Create HintDb storage.

(** A step that at most appends to the shared default array. *)
Definition grows_shared {A : Type} (m : Eff A) : Prop :=
  forall sys r sys', m sys = (r, sys') ->
    exists tail, DEFAULT_STATE_messages sys' = DEFAULT_STATE_messages sys ++ tail.

Create HintDb shared.

(** ** A completed chat turn *)

(** What the memory step makes of the loaded state [s] on a turn that
    completes: the merge on every third turn, nothing otherwise. *)
Definition memory_result (env : DOEnv) (s : AgentState) : AgentState :=
  if memory_turn (userTurnCount s + 1) then
    match ai_memory env with
    | AIReturns memResp => memory_merge (memParsed_of memResp) s
    | AIThrows => s
    end
  else s.

(** The record a completed chat turn stores. *)
Definition stored_turn (history : list Message) (message reply : value)
  (s0 s1 : AgentState) : StoredState := {|
  stored_messages :=
    Some (history ++ [{| role := user; content := message |};
                      {| role := assistant; content := reply |}]);
  stored_dealMemory := Some (all_fields (dealMemory s1));
  stored_rollingSummary := rollingSummary s1;
  stored_userTurnCount := Some (userTurnCount s0 + 1);
  stored_final := final s0
|}.

(** The body of the answer of a completed chat turn. *)
Definition turn_body (reply followUps : value) (s0 s1 : AgentState) : value :=
  VObj [(js "reply", reply);
        (js "followUps", followUps);
        (js "dealMemory", DealMemory_value (dealMemory s1));
        (js "rollingSummary", rollingSummary s1);
        (js "userTurnCount", VInt (userTurnCount s0 + 1))].

(** The body of the answer of the [catch] block. *)
Definition fallback_body (dm : DealMemory) : value :=
  VObj [(js "reply", VStr APOLOGY);
        (js "followUps", VArr []);
        (js "dealMemory", DealMemory_value dm);
        (js "rollingSummary", VStr []);
        (js "userTurnCount", VInt 0)].

(** The session state persisted for the object [self]: what [load]
    makes of its storage. *)
Definition persisted (self : jsstring) (sys : System) : AgentState :=
  from_storage (objects sys !! self).

(** ** Deal-memory fields *)

Inductive Field : Type :=
| CustomerName | Company | Industry | PainPoints
| Budget | Timeline | Objections | NextSteps.

Definition field_key (f : Field) : jsstring :=
  match f with
  | CustomerName => js "customerName"
  | Company => js "company"
  | Industry => js "industry"
  | PainPoints => js "painPoints"
  | Budget => js "budget"
  | Timeline => js "timeline"
  | Objections => js "objections"
  | NextSteps => js "nextSteps"
  end.

(** The fields declared [string[]]. *)
Definition list_field (f : Field) : bool :=
  match f with
  | PainPoints | Objections | NextSteps => true
  | _ => false
  end.

Definition field (f : Field) (dm : DealMemory) : value :=
  match f with
  | CustomerName => customerName dm
  | Company => company dm
  | Industry => industry dm
  | PainPoints => painPoints dm
  | Budget => budget dm
  | Timeline => timeline dm
  | Objections => objections dm
  | NextSteps => nextSteps dm
  end.

(** An extraction result provides a field when it passes the gate the
    merge applies to it: a string field is present (neither [undefined]
    nor [null]), a list field is an actual array. *)
Definition provided (memParsed : value) (f : Field) : bool :=
  if list_field f then isArray (get_prop memParsed (field_key f))
  else negb (nullish (get_prop memParsed (field_key f))).

(** A populated field: a non-empty string or a non-empty list. *)
Definition populated (v : value) : bool :=
  match v with
  | VStr (_ :: _) => true
  | VArr (_ :: _) => true
  | _ => false
  end.

(** ** Texts and lists *)

(** [pat] occurs in [text]. *)
Definition contains (text pat : jsstring) : Prop :=
  exists before after, text = before ++ pat ++ after.

(** The number of entries of a list value. *)
Definition entries (v : value) : option nat :=
  match v with
  | VArr items => Some (length items)
  | _ => None
  end.

(** [v.length === 2], as the chat handler tests its follow-ups. *)
Definition has_length_2 (v : value) : bool :=
  is_number (get_prop_opt v (js "length")) 2.

(** ** Routes *)

(** The public routes the interface table lists. *)
Definition LISTED_ROUTES : list (string * string) :=
  [("/api/chat", "POST"); ("/api/results", "GET"); ("/api/end-call", "POST");
   ("/api/reset", "POST"); ("/", "GET")]%string.

(** The routes the front door serves. *)
Definition SERVED_ROUTES : list (string * string) :=
  ("/api/debug", "GET")%string :: LISTED_ROUTES.

(** The request is for one of [routes]. *)
Definition matches (request : Request) (routes : list (string * string)) : Prop :=
  exists path verb, In (path, verb) routes
                    /\ url_pathname request = js path
                    /\ http_method request = js verb.

(** ** Finalization *)


(** The record persisted for [self] once [final] has been saved. *)
Definition stored_with_final (self : jsstring) (sys : System) (new_final : value)
  : StoredState :=
  stored_of sys
    {| messages := messages (persisted self sys);
       dealMemory := dealMemory (persisted self sys);
       rollingSummary := rollingSummary (persisted self sys);
       userTurnCount := userTurnCount (persisted self sys);
       final := new_final |}.

(** ** Sample data, for the examples *)

(** An isolate in which no session has stored anything yet. *)
Definition fresh_isolate : System :=
  {| DEFAULT_STATE_messages := []; objects := ∅; FINALIZE_CALL := [] |}.

Definition acme_memory : DealMemory := {|
  customerName := VStr (js "Dana");
  company := VStr (js "Acme");
  industry := VStr [];
  painPoints := VArr [VStr (js "cost")];
  budget := VStr [];
  timeline := VStr [];
  objections := VArr [];
  nextSteps := VArr []
|}.

(** The record of a session two turns old. *)
Definition acme_stored : StoredState := {|
  stored_messages :=
    Some [{| role := user; content := VStr (js "Too expensive") |};
          {| role := assistant; content := VStr (js "Compared to what?") |};
          {| role := user; content := VStr (js "Our current vendor") |};
          {| role := assistant; content := VStr (js "What do they charge?") |}];
  stored_dealMemory := Some (all_fields acme_memory);
  stored_rollingSummary := VStr (js "Price objection");
  stored_userTurnCount := Some 2;
  stored_final := VUndefined
|}.

(** An isolate holding that one session, under the name ["acme"]. *)
Definition acme_isolate : System :=
  {| DEFAULT_STATE_messages := [];
     objects := {[ js "acme" := acme_stored ]};
     FINALIZE_CALL := [] |}.

(** The inference binding answers [{ response: text }]. *)
Definition says (text : jsstring) : AIResult :=
  AIReturns (AIObj {| ai_response := Some text; ai_output_text := None;
                      ai_result_response := None; ai_stringified := None |}).

(** The request the front door sends the object for a chat message. *)
Definition chat_request (message : string) : DORequest :=
  internal "/internal/chat" "POST" (Some (VObj [(js "message", VStr (js message))])).

(** The inference binding is down. *)
Definition inference_down : DOEnv :=
  {| ai_reply := AIThrows; ai_memory := AIThrows; put_ok := true |}.

(** The inference binding answers the chat call, and an extraction that
    does not parse on the memory call. *)
Definition garbled_memory : DOEnv :=
  {| ai_reply := says (js "Noted.");
     ai_memory := says (js "<json>{ customerName: Dana </json>");
     put_ok := true |}.

(** The same, with an extraction whose [customerName] is the empty
    string and whose [painPoints] is the empty list. *)
Definition blanking_memory : DOEnv :=
  {| ai_reply := says (js "Noted.");
     ai_memory :=
       says (js "<json>{" ++ quoted "customerName" ++ js ":" ++ dquote ++ dquote
             ++ js "," ++ quoted "painPoints" ++ js ":[]}</json>");
     put_ok := true |}.

(** The request the workflow sends the object to save [value]. *)
Definition save_final_request (v : value) : DORequest :=
  internal "/internal/save-final" "POST" (Some (VObj [(js "final", v)])).

(** A public request with no body and no query. *)
Definition bare_request (path verb : string) : Request :=
  {| url_pathname := js path; http_method := js verb;
     request_body := None; searchParams_sessionId := None |}.

(** [GET /api/debug?sessionId=acme]. *)
Definition debug_request : Request :=
  {| url_pathname := js "/api/debug"; http_method := js "GET";
     request_body := None; searchParams_sessionId := Some (js "acme") |}.

Definition quiet_platform : FetchEnv :=
  {| object_env := inference_down; instance_id := js "instance-1" |}.

(** A summary answer with eight bullets. *)
Definition eight_bullets : AIOutput :=
  AIString (js "Here you go: {" ++ quoted "summaryBullets" ++ js ":["
            ++ quoted "b1" ++ js "," ++ quoted "b2" ++ js "," ++ quoted "b3"
            ++ js "," ++ quoted "b4" ++ js "," ++ quoted "b5" ++ js ","
            ++ quoted "b6" ++ js "," ++ quoted "b7" ++ js "," ++ quoted "b8"
            ++ js "]}").


(** An action-items answer with one item. *)
Definition one_action : AIOutput :=
  AIString (js "{" ++ quoted "actionItems" ++ js ":[{" ++ quoted "owner" ++ js ":"
            ++ quoted "Rep" ++ js "," ++ quoted "item" ++ js ":"
            ++ quoted "Send pricing" ++ js "}]}").

Definition email_text : AIOutput := AIString (js "  Hi Dana, thanks for the call.  ").

(** ** Requests, routes and sequences *)

(** The routes the durable object serves. *)
Definition INTERNAL_ROUTES : list (string * string) :=
  [("/internal/chat", "POST"); ("/internal/state", "GET");
   ("/internal/save-final", "POST"); ("/internal/reset", "POST")]%string.

(** The request to the object is for one of its routes. *)
Definition internal_matches (req : DORequest) : Prop :=
  exists path verb, In (path, verb) INTERNAL_ROUTES
                    /\ pathname req = js path
                    /\ method req = js verb.

(** The requests the front door sends the object to read its state and
    to reset it. *)
Definition state_request : DORequest := internal "/internal/state" "GET" None.

Definition reset_request : DORequest := internal "/internal/reset" "POST" None.

(** The public routes that read [sessionId] from the JSON body. *)
Definition BODY_ROUTES : list string :=
  ["/api/chat"; "/api/end-call"; "/api/reset"]%string.

(** The public routes that read [sessionId] from the query string. *)
Definition QUERY_ROUTES : list string := ["/api/results"; "/api/debug"]%string.

(** [request.json()] rejects, or resolves to [null]: the destructuring
    of the handler has nothing to read from. *)
Definition body_unreadable (request : Request) : bool :=
  match request_body request with
  | None => true
  | Some v => nullish v
  end.

(** The environment [env] with another outcome of the extraction call. *)
Definition with_memory (env : DOEnv) (r : AIResult) : DOEnv :=
  {| ai_reply := ai_reply env; ai_memory := r; put_ok := put_ok env |}.

(** The system after the chat requests [reqs], each with what the
    platform does during it, have been handled in turn by the object
    [self]. *)
Definition chat_many (self : jsstring) (reqs : list (DORequest * DOEnv))
  (sys : System) : System :=
  fold_left (fun sys re => snd (chat self (fst re) (snd re) sys)) reqs sys.

(** ** More sample data *)

(** Twelve messages, numbered. *)
Definition twelve_messages : list Message :=
  List.map (fun n => {| role := user; content := VInt n |})
           [1; 2; 3; 4; 5; 6; 7; 8; 9; 10; 11; 12].

(** A model answer in the format the system prompt asks for, with some
    prose around the tags. *)
Definition tagged_answer : jsstring :=
  js "Sure. <json>{" ++ quoted "reply" ++ js ":" ++ quoted "Ask about budget."
  ++ js "," ++ quoted "followUps" ++ js ":[" ++ quoted "Who decides?" ++ js ","
  ++ quoted "By when?" ++ js "]}</json> Good luck!".

(** A tagged block that holds prose before its object. *)
Definition tagged_prose : jsstring :=
  js "<json>Here: {" ++ quoted "reply" ++ js ":" ++ quoted "Ask." ++ js "}</json>".

(** An object in prose, without tags. *)
Definition untagged_answer : jsstring :=
  js "Sure: {" ++ quoted "reply" ++ js ":" ++ quoted "Ask." ++ js "} ok".

(** A chat answer whose [reply] is an object with a [toString]
    property. *)
Definition object_reply : AIOutput :=
  AIString (js "<json>{" ++ quoted "reply" ++ js ":{" ++ quoted "toString"
            ++ js ":1}," ++ quoted "followUps" ++ js ":[]}</json>").

(** An action-items answer whose one item is [null]. *)
Definition null_action : AIOutput :=
  AIString (js "{" ++ quoted "actionItems" ++ js ":[null]}").

(** An isolate holding the sample session and a second one, ["beta"],
    three turns old. *)
Definition two_sessions : System :=
  {| DEFAULT_STATE_messages := [];
     objects :=
       <[js "beta" := {| stored_messages := Some [];
                         stored_dealMemory := Some (all_fields DEFAULT_DEAL_MEMORY);
                         stored_rollingSummary := VStr (js "Beta call");
                         stored_userTurnCount := Some 3;
                         stored_final := VUndefined |}]>
         {[ js "acme" := acme_stored ]};
     FINALIZE_CALL := [] |}.

(** The platform answers the chat call, gives an empty extraction, and
    accepts the write. *)
Definition plain_reply : DOEnv :=
  {| ai_reply := says (js "Noted.");
     ai_memory := says (js "<json>{}</json>");
     put_ok := true |}.

(** The inference binding answers the chat call and fails on the
    extraction call. *)
Definition extraction_down : DOEnv :=
  {| ai_reply := says (js "Noted."); ai_memory := AIThrows; put_ok := true |}.

(** A [POST] to [path] with the JSON body [v]. *)
Definition post (path : string) (v : value) : Request :=
  {| url_pathname := js path; http_method := js "POST";
     request_body := Some v; searchParams_sessionId := None |}.

(** * Properties *)

(** ** Running a handler step by step *)

Lemma bind_returned {A B : Type} (m : Eff A) (k : A -> Eff B) sys a sys' :
  m sys = (Returned a, sys') -> bind m k sys = k a sys'.
Proof. intros H. unfold bind. now rewrite H. Qed.

(** A pipeline that returned went through each of its steps. *)
Lemma bind_inv_returned {A B : Type} (m : Eff A) (k : A -> Eff B) sys b sys2 :
  bind m k sys = (Returned b, sys2) ->
  exists a sys1, m sys = (Returned a, sys1) /\ k a sys1 = (Returned b, sys2).
Proof.
  unfold bind. destruct (m sys) as [[a|] sys1]; intros H.
  - exists a, sys1. split; [reflexivity | exact H].
  - discriminate H.
Qed.

(** One step of a pipeline that returned. *)
Ltac step H :=
  let a := fresh "a" in
  let sys1 := fresh "sys" in
  let E := fresh "E" in
  apply bind_inv_returned in H; destruct H as (a & sys1 & E & H).

(** A pipeline that threw did so in its first step or in the rest. *)
Lemma bind_inv_thrown {A B : Type} (m : Eff A) (k : A -> Eff B) sys sys2 :
  bind m k sys = (Thrown, sys2) ->
  m sys = (Thrown, sys2)
  \/ exists a sys1, m sys = (Returned a, sys1) /\ k a sys1 = (Thrown, sys2).
Proof.
  unfold bind. destruct (m sys) as [[a|] sys1]; intros H.
  - right. exists a, sys1. split; [reflexivity | exact H].
  - left. inversion H. reflexivity.
Qed.

Lemma keeps_storage_weaken {A : Type} (m : Eff A) :
  keeps_storage m -> keeps_storage_on_throw m.
Proof. intros H sys sys' E. exact (H _ _ _ E). Qed.

Lemma keeps_storage_ret {A : Type} (a : A) : keeps_storage (ret a).
Proof. intros sys r sys' E. inversion E. now subst. Qed.

Lemma keeps_storage_throw {A : Type} : keeps_storage (@throw A).
Proof. intros sys r sys' E. inversion E. now subst. Qed.

Lemma keeps_storage_gets {A : Type} (f : System -> A) : keeps_storage (gets f).
Proof. intros sys r sys' E. inversion E. now subst. Qed.

Lemma keeps_storage_guard (ok : bool) : keeps_storage (guard ok).
Proof. destruct ok; [apply keeps_storage_ret | apply keeps_storage_throw]. Qed.

Lemma keeps_storage_AI_run (r : AIResult) : keeps_storage (AI_run r).
Proof. destruct r; [apply keeps_storage_throw | apply keeps_storage_ret]. Qed.

Lemma keeps_storage_load (self : jsstring) : keeps_storage (load self).
Proof. apply keeps_storage_gets. Qed.

Lemma keeps_storage_push (s : AgentState) (m : Message) : keeps_storage (push s m).
Proof.
  intros sys r sys' E. unfold push in E.
  destruct (messages s); inversion E; now subst.
Qed.

Lemma keeps_storage_request_json (req : DORequest) : keeps_storage (request_json req).
Proof.
  unfold request_json.
  destruct (json_body req); [apply keeps_storage_ret | apply keeps_storage_throw].
Qed.

Lemma keeps_storage_destructure (v : value) (key : jsstring) :
  keeps_storage (destructure v key).
Proof.
  unfold destructure.
  destruct (nullish v); [apply keeps_storage_throw | apply keeps_storage_ret].
Qed.

Lemma keeps_storage_bind {A B : Type} (m : Eff A) (k : A -> Eff B) :
  keeps_storage m -> (forall a, keeps_storage (k a)) -> keeps_storage (bind m k).
Proof.
  intros Hm Hk sys r sys2 E. unfold bind in E.
  destruct (m sys) as [[a|] sys1] eqn:Em.
  - destruct (Hm _ _ _ Em) as [E1 E2]. destruct (Hk a _ _ _ E) as [E3 E4].
    split; congruence.
  - inversion E; subst. exact (Hm _ _ _ Em).
Qed.

Lemma keeps_storage_on_throw_bind {A B : Type} (m : Eff A) (k : A -> Eff B) :
  keeps_storage m -> (forall a, keeps_storage_on_throw (k a)) ->
  keeps_storage_on_throw (bind m k).
Proof.
  intros Hm Hk sys sys2 E.
  destruct (bind_inv_thrown _ _ _ _ E) as [Et | (a & sys1 & Em & Ek)].
  - exact (Hm _ _ _ Et).
  - destruct (Hm _ _ _ Em) as [E1 E2]. destruct (Hk a _ _ Ek) as [E3 E4].
    split; congruence.
Qed.

Lemma keeps_storage_on_throw_save self accepted s :
  keeps_storage_on_throw (save self accepted s).
Proof.
  intros sys sys' E. unfold save in E.
  destruct accepted; inversion E. now subst.
Qed.

#[local] Hint Resolve keeps_storage_ret keeps_storage_throw keeps_storage_gets
  keeps_storage_guard keeps_storage_AI_run keeps_storage_load
  keeps_storage_push keeps_storage_request_json keeps_storage_destructure
  keeps_storage_weaken keeps_storage_on_throw_save : storage.

(** A last step that returns whatever happens. *)
Lemma keeps_storage_on_throw_then_ret {A B : Type} (m : Eff A) (b : B) :
  keeps_storage_on_throw m -> keeps_storage_on_throw (bind m (fun _ => ret b)).
Proof.
  intros Hm sys sys2 E.
  destruct (bind_inv_thrown _ _ _ _ E) as [Et | (a & sys1 & Em & Ek)].
  - exact (Hm _ _ Et).
  - discriminate Ek.
Qed.

(** The memory step of a chat turn (lines 177-217). *)
Lemma keeps_storage_memory_step (env : DOEnv) (s : AgentState) :
  keeps_storage (memory_step env s).
Proof.
  unfold memory_step.
  destruct (memory_turn _); [ | apply keeps_storage_ret ].
  repeat (apply keeps_storage_bind; [ | intros ? ]); auto with storage.
Qed.

(** The chat pipeline writes to the storage in its last step only. *)
Lemma chat_pipeline_keeps_storage_on_throw self req env :
  keeps_storage_on_throw (chat_pipeline self req env).
Proof.
  unfold chat_pipeline.
  do 8 (apply keeps_storage_on_throw_bind; [ auto with storage | intros ? ]).
  apply keeps_storage_on_throw_bind; [ apply keeps_storage_memory_step | intros ? ].
  apply keeps_storage_on_throw_bind; [ auto with storage | intros ? ].
  apply keeps_storage_on_throw_then_ret. auto with storage.
Qed.

(** *** Steps that returned *)

Lemma ret_inv {A : Type} (a b : A) sys sys' :
  ret a sys = (Returned b, sys') -> a = b /\ sys' = sys.
Proof. intros H. inversion H. auto. Qed.

Lemma gets_inv {A : Type} (f : System -> A) b sys sys' :
  gets f sys = (Returned b, sys') -> b = f sys /\ sys' = sys.
Proof. intros H. inversion H. auto. Qed.

Lemma guard_inv ok u sys sys' :
  guard ok sys = (Returned u, sys') -> ok = true /\ sys' = sys.
Proof. destruct ok; intros H; inversion H; auto. Qed.

Lemma AI_run_inv r o sys sys' :
  AI_run r sys = (Returned o, sys') -> r = AIReturns o /\ sys' = sys.
Proof. destruct r; intros H; inversion H; auto. Qed.

Lemma request_json_inv req v sys sys' :
  request_json req sys = (Returned v, sys') -> json_body req = Some v /\ sys' = sys.
Proof.
  unfold request_json. destruct (json_body req); intros H; inversion H; auto.
Qed.

Lemma destructure_inv v key x sys sys' :
  destructure v key sys = (Returned x, sys') ->
  nullish v = false /\ x = get_prop v key /\ sys' = sys.
Proof.
  unfold destructure. destruct (nullish v); intros H; inversion H; auto.
Qed.

Lemma save_inv self accepted s u sys sys' :
  save self accepted s sys = (Returned u, sys') ->
  accepted = true
  /\ objects sys' = <[self := stored_of sys s]> (objects sys)
  /\ DEFAULT_STATE_messages sys' = DEFAULT_STATE_messages sys
  /\ FINALIZE_CALL sys' = FINALIZE_CALL sys.
Proof. unfold save. destruct accepted; intros H; inversion H; auto. Qed.

(** What [push] does, whichever array the state refers to. *)
Lemma push_fields s m s' sys sys' :
  push s m sys = (Returned s', sys') ->
  deref sys' (messages s') = deref sys (messages s) ++ [m]
  /\ dealMemory s' = dealMemory s /\ rollingSummary s' = rollingSummary s
  /\ userTurnCount s' = userTurnCount s /\ final s' = final s
  /\ objects sys' = objects sys /\ FINALIZE_CALL sys' = FINALIZE_CALL sys.
Proof.
  unfold push. destruct s as [[|items] dm rs n f]; simpl;
    intros H; inversion H; subst; simpl; auto 10.
Qed.

Lemma memory_merge_fields p s :
  messages (memory_merge p s) = messages s
  /\ userTurnCount (memory_merge p s) = userTurnCount s
  /\ final (memory_merge p s) = final s.
Proof. unfold memory_merge. destruct (truthy p); auto. Qed.

(** The deal memory and the rolling summary a merge yields depend on
    the deal memory and the rolling summary only. *)
Lemma memory_merge_ext p s t :
  dealMemory s = dealMemory t -> rollingSummary s = rollingSummary t ->
  dealMemory (memory_merge p s) = dealMemory (memory_merge p t)
  /\ rollingSummary (memory_merge p s) = rollingSummary (memory_merge p t).
Proof.
  intros Hd Hr. unfold memory_merge. destruct (truthy p); simpl; [ | auto ].
  now rewrite Hd, Hr.
Qed.

Lemma memory_step_inv env s s' sys sys' :
  memory_step env s sys = (Returned s', sys') ->
  sys' = sys /\
  (memory_turn (userTurnCount s) = false /\ s' = s
   \/ memory_turn (userTurnCount s) = true /\
      exists memResp, ai_memory env = AIReturns memResp
                      /\ s' = memory_merge (memParsed_of memResp) s).
Proof.
  unfold memory_step. destruct (memory_turn (userTurnCount s)); intros H.
  - step H. step H.
    apply guard_inv in E as [_ ->]. apply AI_run_inv in E0 as [E0 ->].
    apply ret_inv in H as [<- ->]. split; [reflexivity|]. right. eauto.
  - apply ret_inv in H as [<- ->]. auto.
Qed.

(** A chat turn that completes: what it answers and what it stores. *)
Lemma chat_pipeline_returned self req env sys resp sys' :
  chat_pipeline self req env sys = (Returned resp, sys') ->
  let s0 := persisted self sys in
  let s1 := memory_result env s0 in
  exists parsed_body aiResp,
    json_body req = Some parsed_body
    /\ ai_reply env = AIReturns aiResp
    /\ put_ok env = true
    /\ resp = Response_json
                (turn_body (fst (chat_parse aiResp)) (snd (chat_parse aiResp)) s0 s1)
    /\ objects sys' =
       <[self := stored_turn (deref sys (messages s0))
                   (get_prop parsed_body (js "message"))
                   (fst (chat_parse aiResp)) s0 s1]> (objects sys).
Proof.
  intros H. cbv zeta. unfold persisted.
  set (s0 := from_storage (objects sys !! self)).
  set (s1 := memory_result env s0).
  unfold chat_pipeline in H.
  do 11 step H.
  apply request_json_inv in E as [Eb ->].
  apply destructure_inv in E0 as (Hn & -> & ->).
  apply gets_inv in E1 as [-> ->].
  apply gets_inv in E3 as [-> ->].
  apply guard_inv in E4 as [_ ->].
  apply guard_inv in E5 as [_ ->].
  apply AI_run_inv in E6 as [Eai ->].
  apply memory_step_inv in E7 as [-> Hm].
  apply ret_inv in H as [<- ->].
  apply push_fields in E2 as (P1 & P2 & P3 & P4 & P5 & P6 & P7).
  apply push_fields in E8 as (Q1 & Q2 & Q3 & Q4 & Q5 & Q6 & Q7).
  apply save_inv in E9 as (Hput & S1 & S2 & S3).
  fold s0 in P1, P2, P3, P4, P5.
  exists a, a6. repeat split; try assumption.
  - (* the answer *)
    unfold turn_body. rewrite Q2, Q3, Q4.
    destruct Hm as [[Hturn ->] | (Hturn & memResp & Emem & ->)]; simpl in *.
    + unfold s1, memory_result. rewrite <- P4, Hturn, P2, P3, P4. reflexivity.
    + unfold s1, memory_result. rewrite <- P4, Hturn, Emem.
      destruct (memory_merge_ext (memParsed_of memResp)
                  {| messages := messages a2; dealMemory := dealMemory a2;
                     rollingSummary := rollingSummary a2;
                     userTurnCount := userTurnCount a2 + 1; final := final a2 |}
                  s0 P2 P3) as [-> ->].
      destruct (memory_merge_fields (memParsed_of memResp)
                  {| messages := messages a2; dealMemory := dealMemory a2;
                     rollingSummary := rollingSummary a2;
                     userTurnCount := userTurnCount a2 + 1; final := final a2 |})
        as (_ & -> & _).
      simpl. rewrite P4. reflexivity.
  - (* the stored record *)
    rewrite S1, Q6, P6. f_equal.
    unfold stored_of, stored_turn. rewrite Q1, Q2, Q3, Q4, Q5.
    destruct Hm as [[Hturn ->] | (Hturn & memResp & Emem & ->)]; simpl in *.
    + unfold s1, memory_result. rewrite <- P4, Hturn, P1, P2, P3, P4, P5.
      rewrite <- app_assoc. reflexivity.
    + unfold s1, memory_result. rewrite <- P4, Hturn, Emem.
      destruct (memory_merge_ext (memParsed_of memResp)
                  {| messages := messages a2; dealMemory := dealMemory a2;
                     rollingSummary := rollingSummary a2;
                     userTurnCount := userTurnCount a2 + 1; final := final a2 |}
                  s0 P2 P3) as [-> ->].
      destruct (memory_merge_fields (memParsed_of memResp)
                  {| messages := messages a2; dealMemory := dealMemory a2;
                     rollingSummary := rollingSummary a2;
                     userTurnCount := userTurnCount a2 + 1; final := final a2 |})
        as (-> & -> & ->).
      simpl. rewrite P1, P4, P5. rewrite <- app_assoc. reflexivity.
Qed.

(** ** The chat handler on failure *)

(** The [catch] block reads the stored state and answers. *)
Lemma chat_fallback_run self sys :
  chat_fallback self sys
  = (Returned (Response_json (fallback_body (dealMemory (persisted self sys)))), sys).
Proof. reflexivity. Qed.

(** A chat request whose pipeline throws is answered by the [catch]
    block, over a storage the pipeline has not written to. *)
Lemma chat_on_throw self req env sys :
  fst (chat_pipeline self req env sys) = Thrown ->
  fst (chat self req env sys)
  = Returned (Response_json (fallback_body (dealMemory (persisted self sys))))
  /\ objects (snd (chat self req env sys)) = objects sys.
Proof.
  intros H. unfold chat, try_catch.
  destruct (chat_pipeline self req env sys) as [[resp|] sys1] eqn:E;
    [discriminate H | ].
  destruct (chat_pipeline_keeps_storage_on_throw self req env sys sys1 E) as [Eo _].
  rewrite chat_fallback_run. simpl. unfold persisted. rewrite Eo. auto.
Qed.

(** A chat request whose pipeline returns is answered by the pipeline. *)
Lemma chat_on_return self req env sys resp :
  fst (chat_pipeline self req env sys) = Returned resp ->
  chat self req env sys = chat_pipeline self req env sys.
Proof.
  intros H. unfold chat, try_catch.
  destruct (chat_pipeline self req env sys) as [[r|] sys1]; [reflexivity | discriminate H].
Qed.



(** C6: when the chat pipeline throws, the handler still answers, with
    status 200: the fixed apology as reply, no follow-ups, and the deal
    memory last persisted for the session (the defaults when nothing is
    stored). *)
Theorem chat_failure_answers_fallback self req env sys :
  fst (chat_pipeline self req env sys) = Thrown ->
  exists resp,
    fst (chat self req env sys) = Returned resp
    /\ status resp = 200
    /\ response_field resp (js "reply") = VStr APOLOGY
    /\ response_field resp (js "followUps") = VArr []
    /\ response_field resp (js "dealMemory")
       = DealMemory_value (dealMemory (persisted self sys))
    /\ (objects sys !! self = None ->
        response_field resp (js "dealMemory") = DealMemory_value DEFAULT_DEAL_MEMORY).
Proof.
  intros H. destruct (chat_on_throw self req env sys H) as [E _].
  eexists. split; [exact E | ].
  repeat split.
  intros Hnone. unfold persisted. rewrite Hnone. reflexivity.
Qed.

(** The same failing turn: the answer carries the deal memory the
    session had stored. *)
Lemma chat_failure_answers_fallback_witness :
  fst (chat_pipeline (js "acme") (chat_request "Still too expensive")
         inference_down acme_isolate) = Thrown
  /\ exists resp,
       fst (chat (js "acme") (chat_request "Still too expensive")
              inference_down acme_isolate) = Returned resp
       /\ status resp = 200
       /\ response_field resp (js "reply") = VStr APOLOGY
       /\ response_field resp (js "followUps") = VArr []
       /\ response_field resp (js "dealMemory") = DealMemory_value acme_memory.
Proof.
  assert (H : fst (chat_pipeline (js "acme") (chat_request "Still too expensive")
                     inference_down acme_isolate) = Thrown)
    by (vm_compute; reflexivity).
  split; [exact H | ].
  destruct (chat_failure_answers_fallback _ _ _ _ H)
    as (resp & E & Hs & Hr & Hf & Hd & _).
  exists resp. rewrite Hd. auto 10.
Defined.

(** ** Strings *)

Lemma jsstring_eqb_eq (a b : jsstring) : jsstring_eqb a b = true <-> a = b.
Proof.
  revert b. induction a as [|x a IH]; intros [|y b]; simpl; split; intros H;
    try reflexivity; try discriminate.
  - apply andb_true_iff in H as [Hx Hab].
    apply N.eqb_eq in Hx. apply IH in Hab. now subst.
  - inversion H; subst. apply andb_true_iff. split.
    + apply N.eqb_refl.
    + now apply IH.
Qed.

Lemma startsWith_prefix (text pat : jsstring) :
  startsWith text pat = true <-> exists rest, text = pat ++ rest.
Proof.
  revert text. induction pat as [|p pat IH]; intros text; simpl.
  - split; [intros _; now exists text | reflexivity].
  - destruct text as [|c text].
    + split; [discriminate | intros [rest H]; discriminate H].
    + rewrite andb_true_iff, N.eqb_eq, IH. split.
      * intros [-> [rest ->]]. now exists rest.
      * intros [rest H]. inversion H; subst. split; [reflexivity | now exists rest].
Qed.

(** [indexOf] finds a pattern exactly when it occurs. *)
Lemma indexOf_from_contains (i : Z) (text pat : jsstring) :
  0 <= i -> (indexOf_from i text pat <> -1 <-> contains text pat).
Proof.
  revert i. induction text as [|c text IH]; intros i Hi; simpl.
  - destruct (startsWith [] pat) eqn:E.
    + split; [ | lia]. intros _.
      apply startsWith_prefix in E as [rest E]. exists [], rest. exact E.
    + split; [congruence | ].
      intros (before & after & H). exfalso.
      destruct before; [ | discriminate H]. simpl in H.
      assert (startsWith [] pat = true) by (apply startsWith_prefix; eauto).
      congruence.
  - destruct (startsWith (c :: text) pat) eqn:E.
    + split; [ | lia]. intros _.
      apply startsWith_prefix in E as [rest E]. exists [], rest. exact E.
    + rewrite (IH (i + 1)) by lia. split.
      * intros (before & after & ->). exists (c :: before), after. reflexivity.
      * intros (before & after & H). destruct before as [|b before].
        -- exfalso. simpl in H.
           assert (startsWith (c :: text) pat = true)
             by (apply startsWith_prefix; eauto).
           congruence.
        -- inversion H; subst. exists before, after. reflexivity.
Qed.

Lemma indexOf_absent (text pat : jsstring) :
  indexOf text pat = -1 <-> ~ contains text pat.
Proof.
  unfold indexOf. rewrite <- (indexOf_from_contains 0 text pat) by lia.
  destruct (Z.eq_dec (indexOf_from 0 text pat) (-1)); tauto.
Qed.

(** A one-character pattern occurs exactly when the character does. *)
Lemma contains_char (text : jsstring) (c : N) : contains text [c] <-> In c text.
Proof.
  split.
  - intros (before & after & ->). apply in_or_app. right. now left.
  - intros H. apply in_split in H as (before & after & ->). now exists before, after.
Qed.

Lemma trimStart_incl (text : jsstring) (c : N) : In c (trimStart text) -> In c text.
Proof.
  induction text as [|x text IH]; simpl; [tauto | ].
  destruct (isWhiteSpace x); [ | tauto]. intros H. right. now apply IH.
Qed.

(** Trimming keeps characters of the text only. *)
Lemma trim_incl (text : jsstring) (c : N) : In c (trim text) -> In c text.
Proof.
  unfold trim, trimEnd. intros H.
  apply in_rev in H. apply trimStart_incl in H. apply in_rev in H.
  now apply trimStart_incl.
Qed.

Lemma startsWith_char (text : jsstring) (c : N) :
  startsWith text [c] = true -> In c text.
Proof.
  intros H. apply startsWith_prefix in H as [rest ->]. now left.
Qed.

(** ** The chat handler's parse *)

(** The property [key] of the answer of a completed turn. *)
Lemma turn_body_fields reply followUps s0 s1 :
  response_field (Response_json (turn_body reply followUps s0 s1)) (js "reply") = reply
  /\ response_field (Response_json (turn_body reply followUps s0 s1)) (js "followUps")
     = followUps
  /\ response_field (Response_json (turn_body reply followUps s0 s1)) (js "dealMemory")
     = DealMemory_value (dealMemory s1).
Proof. repeat split. Qed.

Lemma has_length_2_entries (items : list value) :
  has_length_2 (VArr items) = true -> length items = 2%nat.
Proof.
  unfold has_length_2. simpl. rewrite Z.mul_1_r. intros H.
  apply Z.eqb_eq in H. lia.
Qed.

(** The follow-ups the parse yields have length 2. *)
Lemma chat_parse_followUps (aiResp : AIOutput) :
  has_length_2 (snd (chat_parse aiResp)) = true.
Proof.
  unfold chat_parse. cbv zeta. simpl snd.
  match goal with |- context [is_number (get_prop_opt (get_prop_opt ?p ?k) ?l) 2] =>
    destruct (is_number (get_prop_opt (get_prop_opt p k) l) 2) eqn:E;
    [ | reflexivity ];
    unfold has_length_2; unfold get_prop_opt at 2 in E;
    destruct (nullish p); [ discriminate E | exact E ]
  end.
Qed.

(** C2, as the code has it: a chat request is always answered; when the
    pipeline completes, the [followUps] of the answer has length 2 (as a
    list: exactly 2 entries), and when the pipeline throws it is the
    empty list. *)
Theorem chat_followUps_length self req env sys :
  exists resp,
    fst (chat self req env sys) = Returned resp
    /\ match fst (chat_pipeline self req env sys) with
       | Returned _ =>
           has_length_2 (response_field resp (js "followUps")) = true
           /\ (forall items, response_field resp (js "followUps") = VArr items ->
                             length items = 2%nat)
       | Thrown => response_field resp (js "followUps") = VArr []
       end.
Proof.
  destruct (fst (chat_pipeline self req env sys)) as [resp|] eqn:E.
  - exists resp. split; [now rewrite (chat_on_return _ _ _ _ _ E) | ].
    destruct (chat_pipeline self req env sys) as [r sys'] eqn:Ep.
    simpl in E. subst r.
    destruct (chat_pipeline_returned _ _ _ _ _ _ Ep)
      as (b & aiResp & _ & _ & _ & -> & _).
    destruct (turn_body_fields (fst (chat_parse aiResp)) (snd (chat_parse aiResp))
                (persisted self sys) (memory_result env (persisted self sys)))
      as (_ & -> & _).
    assert (H := chat_parse_followUps aiResp).
    split; [exact H | ].
    intros items Ei. rewrite Ei in H. now apply has_length_2_entries.
  - eexists. split; [exact (proj1 (chat_on_throw _ _ _ _ E)) | reflexivity].
Qed.

(** C2, as stated, fails when the pipeline throws: the fallback answer
    has no follow-up at all. *)
Lemma chat_failure_has_no_followUps :
  exists resp,
    fst (chat (js "acme") (chat_request "Still too expensive")
           inference_down acme_isolate) = Returned resp
    /\ entries (response_field resp (js "followUps")) = Some 0%nat.
Proof. eexists. split; vm_compute; reflexivity. Qed.

(** The model may answer a value that is no list: a two-character
    string passes the length test and is returned as [followUps]. *)
Example chat_followUps_may_be_a_string :
  snd (chat_parse
         (AIString (js "{" ++ quoted "followUps" ++ js ":" ++ quoted "ab" ++ js "}")))
  = VStr (js "ab").
Proof. vm_compute. reflexivity. Qed.

(** Nothing to extract and no leading brace: the raw text is the reply
    and the follow-ups are the generic ones. *)
Lemma chat_parse_plain (aiResp : AIOutput) :
  tagged_json (normalizeAIText aiResp) = [] ->
  startsWith (trim (normalizeAIText aiResp)) (js "{") = false ->
  chat_parse aiResp = (VStr (normalizeAIText aiResp), GENERIC_FOLLOWUPS).
Proof.
  intros Hj Hb. unfold chat_parse, parseTagged. cbv zeta.
  rewrite Hj, Hb. reflexivity.
Qed.

Lemma extractBetween_absent (text startTag endTag : jsstring) :
  ~ contains text startTag -> extractBetween text startTag endTag = None.
Proof.
  intros H. apply indexOf_absent in H. unfold extractBetween. now rewrite H.
Qed.

Lemma extractJsonObject_absent (text : jsstring) :
  ~ contains text (js "{") -> extractJsonObject text = None.
Proof.
  intros H. apply indexOf_absent in H. unfold extractJsonObject. now rewrite H.
Qed.

(** C7: when the model's chat output is non-empty text with no [<json>]
    tags and no braces, the parse makes the raw text the reply and
    substitutes the two generic questions; a turn that completes answers
    with exactly those. *)
Theorem chat_plain_text_reply (aiResp : AIOutput) :
  let rawText := normalizeAIText aiResp in
  rawText <> [] ->
  ~ contains rawText (js "<json>") ->
  ~ contains rawText (js "</json>") ->
  ~ contains rawText (js "{") ->
  ~ contains rawText (js "}") ->
  chat_parse aiResp = (VStr rawText, GENERIC_FOLLOWUPS)
  /\ forall self req env sys resp sys',
       ai_reply env = AIReturns aiResp ->
       chat_pipeline self req env sys = (Returned resp, sys') ->
       response_field resp (js "reply") = VStr rawText
       /\ response_field resp (js "followUps") = GENERIC_FOLLOWUPS.
Proof.
  intros rawText _ Htag _ Hopen _.
  assert (Hparse : chat_parse aiResp = (VStr rawText, GENERIC_FOLLOWUPS)).
  { apply chat_parse_plain.
    - unfold tagged_json. fold rawText.
      rewrite (extractBetween_absent _ _ _ Htag).
      rewrite (extractJsonObject_absent _ Hopen). reflexivity.
    - fold rawText.
      destruct (startsWith (trim rawText) (js "{")) eqn:E; [ | reflexivity ].
      exfalso. apply Hopen. apply contains_char.
      apply trim_incl. now apply startsWith_char. }
  split; [exact Hparse | ].
  intros self req env sys resp sys' Hai Hrun.
  destruct (chat_pipeline_returned _ _ _ _ _ _ Hrun)
    as (b & aiResp' & _ & Hai' & _ & -> & _).
  rewrite Hai in Hai'. inversion Hai'; subst aiResp'.
  destruct (turn_body_fields (fst (chat_parse aiResp)) (snd (chat_parse aiResp))
              (persisted self sys) (memory_result env (persisted self sys)))
    as (-> & -> & _).
  now rewrite Hparse.
Qed.

(** A plain sentence as the model's answer. *)
Lemma chat_plain_text_reply_witness :
  chat_parse (AIString (js "Ask what they are comparing the price to."))
  = (VStr (js "Ask what they are comparing the price to."), GENERIC_FOLLOWUPS).
Proof.
  refine (proj1 (chat_plain_text_reply
                   (AIString (js "Ask what they are comparing the price to."))
                   _ _ _ _ _)).
  - discriminate.
  - apply indexOf_absent. vm_compute. reflexivity.
  - apply indexOf_absent. vm_compute. reflexivity.
  - apply indexOf_absent. vm_compute. reflexivity.
  - apply indexOf_absent. vm_compute. reflexivity.
Defined.

(** ** What a stored record loads back as *)

Lemma spread_all_fields (base dm : DealMemory) :
  spread_DealMemory base (all_fields dm) = dm.
Proof. destruct dm. reflexivity. Qed.

Lemma coalesce_twice (a d : value) : coalesce (coalesce a d) d = coalesce a d.
Proof.
  unfold coalesce. destruct (nullish a) eqn:E; [ | now rewrite E ].
  now destruct (nullish d).
Qed.

(** The rolling summary of a loaded state is never [undefined] or [null]. *)
Lemma persisted_rollingSummary self sys :
  coalesce (rollingSummary (persisted self sys)) (VStr [])
  = rollingSummary (persisted self sys).
Proof.
  unfold persisted, from_storage. destruct (objects sys !! self); simpl.
  - apply coalesce_twice.
  - reflexivity.
Qed.

(** The state persisted for [self] once a record has been put. *)
Lemma persisted_insert self sys sys' stored :
  objects sys' = <[self := stored]> (objects sys) ->
  persisted self sys' = from_storage (Some stored).
Proof.
  intros H. unfold persisted. rewrite H. now rewrite lookup_insert_eq.
Qed.

Lemma persisted_same self sys sys' :
  objects sys' = objects sys -> persisted self sys' = persisted self sys.
Proof. intros H. unfold persisted. now rewrite H. Qed.

(** ** The deal-memory merge *)

(** Field by field: the value provided, the prior value otherwise. *)
Lemma mergeDealMemory_field (memParsed : value) (dm : DealMemory) (f : Field) :
  field f (mergeDealMemory memParsed dm)
  = if provided memParsed f then get_prop memParsed (field_key f) else field f dm.
Proof.
  destruct f; unfold provided, mergeDealMemory, coalesce, array_or; simpl;
    match goal with
    | |- context [nullish ?x] => destruct (nullish x); reflexivity
    | |- context [isArray ?x] => destruct (isArray x); reflexivity
    end.
Qed.

(** Two deal memories with the same fields are the same. *)
Lemma DealMemory_ext (a b : DealMemory) :
  (forall f, field f a = field f b) -> a = b.
Proof.
  intros H. destruct a, b.
  pose proof (H CustomerName). pose proof (H Company). pose proof (H Industry).
  pose proof (H PainPoints). pose proof (H Budget). pose proof (H Timeline).
  pose proof (H Objections). pose proof (H NextSteps).
  simpl in *. congruence.
Qed.

(** An extraction result that provides nothing changes nothing. *)
Lemma mergeDealMemory_nothing_provided (memParsed : value) (dm : DealMemory) :
  (forall f, provided memParsed f = false) -> mergeDealMemory memParsed dm = dm.
Proof.
  intros H. apply DealMemory_ext. intros f.
  rewrite mergeDealMemory_field. now rewrite H.
Qed.

Lemma memory_merge_falsy (memParsed : value) (s : AgentState) :
  truthy memParsed = false -> memory_merge memParsed s = s.
Proof. intros H. unfold memory_merge. now rewrite H. Qed.

Lemma memory_merge_empty_object (s : AgentState) : memory_merge (VObj []) s = s.
Proof. destruct s as [m [] r n f]. reflexivity. Qed.

(** The deal memory a chat request leaves persisted: the one the memory
    step produced when the turn completed, the prior one otherwise. *)
Lemma chat_dealMemory self req env sys :
  dealMemory (persisted self (snd (chat self req env sys)))
  = dealMemory (persisted self sys)
  \/ (exists resp, fst (chat_pipeline self req env sys) = Returned resp)
     /\ dealMemory (persisted self (snd (chat self req env sys)))
        = dealMemory (memory_result env (persisted self sys)).
Proof.
  destruct (fst (chat_pipeline self req env sys)) as [resp|] eqn:E.
  - right. split; [eauto | ].
    rewrite (chat_on_return _ _ _ _ _ E).
    destruct (chat_pipeline self req env sys) as [r sys'] eqn:Ep.
    simpl in E. subst r.
    destruct (chat_pipeline_returned _ _ _ _ _ _ Ep)
      as (b & aiResp & _ & _ & _ & _ & Eo).
    simpl. rewrite (persisted_insert _ _ _ _ Eo). simpl.
    apply spread_all_fields.
  - left. now rewrite (persisted_same _ _ _ (proj2 (chat_on_throw _ _ _ _ E))).
Qed.

(** C4: the merge keeps the prior value of every field the extraction
    result does not provide (a string field is replaced only when
    present, a list field only when the new value is an array); so an
    empty object, an output that does not parse, or the omission of a
    list field leave the memory, respectively that field, as it was, and
    a chat turn whose extraction is empty or does not parse leaves the
    persisted deal memory unchanged.  More generally a result that
    provides no field changes nothing, and merging the same result twice
    is merging it once. *)
Theorem merge_retains_unprovided_fields :
  (forall memParsed dm f,
      field f (mergeDealMemory memParsed dm)
      = if provided memParsed f then get_prop memParsed (field_key f)
        else field f dm)
  /\ (forall s, memory_merge (VObj []) s = s)
  /\ (forall memResp s,
         JSON_parse (tagged_json (normalizeAIText memResp)) = None ->
         memory_merge (memParsed_of memResp) s = s)
  /\ (forall props dm f,
         list_field f = true -> own_property props (field_key f) = None ->
         field f (mergeDealMemory (VObj props) dm) = field f dm)
  /\ (forall memParsed dm,
         (forall f, provided memParsed f = false) ->
         mergeDealMemory memParsed dm = dm)
  /\ (forall memParsed dm,
         mergeDealMemory memParsed (mergeDealMemory memParsed dm)
         = mergeDealMemory memParsed dm)
  /\ (forall self req env sys,
         (forall memResp,
             ai_memory env = AIReturns memResp ->
             memParsed_of memResp = VObj []
             \/ JSON_parse (tagged_json (normalizeAIText memResp)) = None) ->
         dealMemory (persisted self (snd (chat self req env sys)))
         = dealMemory (persisted self sys)).
Proof.
  assert (Hunparsed : forall memResp s,
             JSON_parse (tagged_json (normalizeAIText memResp)) = None ->
             memory_merge (memParsed_of memResp) s = s).
  { intros memResp s H. apply memory_merge_falsy.
    unfold memParsed_of, parseTagged, safeJsonParse. now rewrite H. }
  repeat split.
  - apply mergeDealMemory_field.
  - apply memory_merge_empty_object.
  - exact Hunparsed.
  - intros props dm f Hl Hnone. rewrite mergeDealMemory_field.
    unfold provided. rewrite Hl. simpl. now rewrite Hnone.
  - apply mergeDealMemory_nothing_provided.
  - intros memParsed dm. apply DealMemory_ext. intros f.
    rewrite !mergeDealMemory_field. now destruct (provided memParsed f).
  - intros self req env sys Hmem.
    destruct (chat_dealMemory self req env sys) as [E | [_ E]]; [exact E | ].
    rewrite E. unfold memory_result.
    destruct (memory_turn _); [ | reflexivity ].
    destruct (ai_memory env) as [|memResp] eqn:Eai; [reflexivity | ].
    destruct (Hmem memResp eq_refl) as [-> | Hnone].
    + now rewrite memory_merge_empty_object.
    + now rewrite Hunparsed.
Qed.

(** On the third turn of the sample session the extraction does not
    parse, and the persisted deal memory is what it was. *)
Lemma merge_retains_unprovided_fields_witness :
  dealMemory (persisted (js "acme")
                (snd (chat (js "acme") (chat_request "We have no budget yet")
                        garbled_memory acme_isolate)))
  = acme_memory.
Proof.
  refine (eq_trans
            (proj2 (proj2 (proj2 (proj2 (proj2 (proj2
               merge_retains_unprovided_fields)))))
               (js "acme") (chat_request "We have no budget yet")
               garbled_memory acme_isolate _)
            _).
  - intros memResp H. right. inversion H. vm_compute. reflexivity.
  - vm_compute. reflexivity.
Defined.

(** ** The other operations of the object *)

Lemma get_state_keeps_storage self : keeps_storage (get_state self).
Proof.
  unfold get_state.
  repeat (apply keeps_storage_bind; [ | intros ? ]); auto with storage.
Qed.

(** [/internal/save-final] that returned: what it stored. *)
Lemma save_final_returned self req env sys resp sys' :
  save_final self req env sys = (Returned resp, sys') ->
  exists parsed_body,
    json_body req = Some parsed_body
    /\ nullish parsed_body = false
    /\ put_ok env = true
    /\ objects sys'
       = <[self := stored_with_final self sys (get_prop parsed_body (js "final"))]>
           (objects sys).
Proof.
  intros H. unfold save_final in H. do 4 step H.
  apply request_json_inv in E as [Eb ->].
  apply destructure_inv in E0 as (Hn & -> & ->).
  apply gets_inv in E1 as [-> ->].
  apply save_inv in E2 as (Hput & Ho & _ & _).
  apply ret_inv in H as [_ ->].
  exists a. repeat split; assumption.
Qed.

Lemma save_final_keeps_storage_on_throw self req env :
  keeps_storage_on_throw (save_final self req env).
Proof.
  unfold save_final.
  do 3 (apply keeps_storage_on_throw_bind; [ auto with storage | intros ? ]).
  apply keeps_storage_on_throw_then_ret. auto with storage.
Qed.

(** [/internal/save-final] with a body it can read, on a storage that
    accepts the write. *)
Lemma save_final_run self req env sys parsed_body :
  json_body req = Some parsed_body ->
  nullish parsed_body = false ->
  put_ok env = true ->
  save_final self req env sys
  = (Returned (Response_json (VObj [(js "ok", VBool true)])),
     {| DEFAULT_STATE_messages := DEFAULT_STATE_messages sys;
        objects :=
          <[self := stored_with_final self sys (get_prop parsed_body (js "final"))]>
            (objects sys);
        FINALIZE_CALL := FINALIZE_CALL sys |}).
Proof.
  intros Hb Hn Hput.
  unfold save_final, bind, request_json, destructure, load, gets, save, ret.
  rewrite Hb. simpl. rewrite Hn. simpl. rewrite Hput. reflexivity.
Qed.

(** The state that loads back once [final] has been saved. *)
Lemma persisted_with_final self sys new_final :
  let after := from_storage (Some (stored_with_final self sys new_final)) in
  final after = new_final
  /\ messages after = Own (deref sys (messages (persisted self sys)))
  /\ dealMemory after = dealMemory (persisted self sys)
  /\ rollingSummary after = rollingSummary (persisted self sys)
  /\ userTurnCount after = userTurnCount (persisted self sys).
Proof.
  simpl. repeat split.
  - apply spread_all_fields.
  - apply persisted_rollingSummary.
Qed.

(** The dispatch of [SalesAgent.fetch]. *)
Lemma SalesAgent_fetch_route self req env :
  (pathname req = js "/internal/chat" /\ method req = js "POST"
   /\ SalesAgent_fetch self req env = chat self req env)
  \/ (pathname req = js "/internal/state" /\ method req = js "GET"
      /\ SalesAgent_fetch self req env = get_state self)
  \/ (pathname req = js "/internal/save-final" /\ method req = js "POST"
      /\ SalesAgent_fetch self req env = save_final self req env)
  \/ (pathname req = js "/internal/reset" /\ method req = js "POST"
      /\ SalesAgent_fetch self req env = reset self)
  \/ SalesAgent_fetch self req env = ret NOT_FOUND.
Proof.
  unfold SalesAgent_fetch.
  destruct (jsstring_eqb (pathname req) (js "/internal/chat")) eqn:P1;
    [ destruct (jsstring_eqb (method req) (js "POST")) eqn:M1;
      [ apply jsstring_eqb_eq in P1, M1; auto | ] | ];
  (destruct (jsstring_eqb (pathname req) (js "/internal/state")) eqn:P2;
    [ destruct (jsstring_eqb (method req) (js "GET")) eqn:M2;
      [ apply jsstring_eqb_eq in P2, M2; auto 6 | ] | ]);
  (destruct (jsstring_eqb (pathname req) (js "/internal/save-final")) eqn:P3;
    [ destruct (jsstring_eqb (method req) (js "POST")) eqn:M3;
      [ apply jsstring_eqb_eq in P3, M3; auto 8 | ] | ]);
  (destruct (jsstring_eqb (pathname req) (js "/internal/reset")) eqn:P4;
    [ destruct (jsstring_eqb (method req) (js "POST")) eqn:M4;
      [ apply jsstring_eqb_eq in P4, M4; auto 10 | ] | ]);
  simpl; auto 10.
Qed.

(** A reset leaves the session with the default state. *)
Lemma reset_clears self sys :
  persisted self (snd (reset self sys)) = DEFAULT_STATE.
Proof. unfold persisted, reset. simpl. now rewrite lookup_delete_eq. Qed.

(** C1, as stated, fails: on a memory turn the model's extraction
    supplies the empty string for [customerName], and the merge stores
    it over the populated name. *)
Lemma merge_empties_populated_field :
  populated (customerName (dealMemory (persisted (js "acme") acme_isolate))) = true
  /\ populated
       (customerName
          (dealMemory
             (persisted (js "acme")
                (snd (SalesAgent_fetch (js "acme") (chat_request "Let us move on")
                        blanking_memory acme_isolate)))))
     = false.
Proof. split; vm_compute; reflexivity. Qed.

(** C1, as the code has it: a request to the object leaves a populated
    deal-memory field populated, except a reset, and a chat turn whose
    memory extraction itself provides, for that field, a value that is
    not populated (which the merge then stores). *)
Theorem populated_field_emptied_only_explicitly self req env sys f :
  populated (field f (dealMemory (persisted self sys))) = true ->
  populated
    (field f (dealMemory (persisted self (snd (SalesAgent_fetch self req env sys)))))
  = false ->
  (pathname req = js "/internal/reset" /\ method req = js "POST")
  \/ (pathname req = js "/internal/chat" /\ method req = js "POST"
      /\ memory_turn (userTurnCount (persisted self sys) + 1) = true
      /\ exists memResp,
           ai_memory env = AIReturns memResp
           /\ provided (memParsed_of memResp) f = true
           /\ populated (get_prop (memParsed_of memResp) (field_key f)) = false
           /\ field f (dealMemory
                         (persisted self (snd (SalesAgent_fetch self req env sys))))
              = get_prop (memParsed_of memResp) (field_key f)).
Proof.
  intros Hbefore Hafter.
  destruct (SalesAgent_fetch_route self req env)
    as [(Hp & Hm & E) | [(Hp & Hm & E) | [(Hp & Hm & E) | [(Hp & Hm & E) | E]]]];
    rewrite E in Hafter |- *.
  - (* chat *)
    right. split; [exact Hp | ]. split; [exact Hm | ].
    destruct (chat_dealMemory self req env sys) as [Ed | [_ Ed]];
      rewrite Ed in Hafter |- *; [congruence | ].
    unfold memory_result in Hafter |- *.
    destruct (memory_turn (userTurnCount (persisted self sys) + 1));
      [ | congruence ].
    split; [reflexivity | ].
    destruct (ai_memory env) as [|memResp]; [congruence | ].
    exists memResp. split; [reflexivity | ].
    unfold memory_merge in Hafter |- *.
    destruct (truthy (memParsed_of memResp)); [ | congruence ].
    simpl in Hafter |- *. rewrite mergeDealMemory_field in Hafter |- *.
    destruct (provided (memParsed_of memResp) f); [ auto | congruence ].
  - (* state *)
    exfalso.
    destruct (get_state self sys) as [r sys'] eqn:Eg.
    destruct (get_state_keeps_storage self sys r sys' Eg) as [Eo _].
    simpl in Hafter. rewrite (persisted_same _ _ _ Eo) in Hafter. congruence.
  - (* save-final *)
    exfalso.
    destruct (save_final self req env sys) as [[resp|] sys'] eqn:Es; simpl in Hafter.
    + destruct (save_final_returned _ _ _ _ _ _ Es) as (b & _ & _ & _ & Eo).
      rewrite (persisted_insert _ _ _ _ Eo) in Hafter.
      destruct (persisted_with_final self sys (get_prop b (js "final")))
        as (_ & _ & Ed & _).
      rewrite Ed in Hafter. congruence.
    + destruct (save_final_keeps_storage_on_throw self req env sys sys' Es) as [Eo _].
      rewrite (persisted_same _ _ _ Eo) in Hafter. congruence.
  - (* reset *)
    left. auto.
  - (* not found *)
    exfalso. simpl in Hafter. congruence.
Qed.

(** On the sample session the name is populated before the turn and
    empty after it, and the turn is indeed a memory turn whose
    extraction provides the empty name. *)
Lemma populated_field_emptied_only_explicitly_witness :
  memory_turn (userTurnCount (persisted (js "acme") acme_isolate) + 1) = true
  /\ exists memResp,
       ai_memory blanking_memory = AIReturns memResp
       /\ provided (memParsed_of memResp) CustomerName = true
       /\ populated (get_prop (memParsed_of memResp) (field_key CustomerName)) = false.
Proof.
  destruct (populated_field_emptied_only_explicitly (js "acme")
              (chat_request "Let us move on") blanking_memory acme_isolate
              CustomerName)
    as [[H _] | (_ & _ & Ht & memResp & Eai & Hprov & Hempty & _)].
  - vm_compute. reflexivity.
  - vm_compute. reflexivity.
  - vm_compute in H. discriminate H.
  - split; [exact Ht | ]. exists memResp. auto.
Defined.

(** C10: [/internal/save-final], given a body it can read and a storage
    that accepts the write, answers [{ ok: true }] and sets the
    session's [final] to the supplied value; the messages, the deal
    memory, the rolling summary and the turn count the session loads
    are what they were, and so is everything else in the system; a
    second invocation overwrites the first [final]. *)
Theorem save_final_sets_only_final self req env sys parsed_body :
  pathname req = js "/internal/save-final" ->
  method req = js "POST" ->
  json_body req = Some parsed_body ->
  nullish parsed_body = false ->
  put_ok env = true ->
  exists sys',
    SalesAgent_fetch self req env sys
    = (Returned (Response_json (VObj [(js "ok", VBool true)])), sys')
    /\ final (persisted self sys') = get_prop parsed_body (js "final")
    /\ deref sys' (messages (persisted self sys'))
       = deref sys (messages (persisted self sys))
    /\ dealMemory (persisted self sys') = dealMemory (persisted self sys)
    /\ rollingSummary (persisted self sys') = rollingSummary (persisted self sys)
    /\ userTurnCount (persisted self sys') = userTurnCount (persisted self sys)
    /\ (forall other, other <> self -> objects sys' !! other = objects sys !! other)
    /\ DEFAULT_STATE_messages sys' = DEFAULT_STATE_messages sys
    /\ FINALIZE_CALL sys' = FINALIZE_CALL sys
    /\ (forall req2 env2 parsed_body2,
           pathname req2 = js "/internal/save-final" ->
           method req2 = js "POST" ->
           json_body req2 = Some parsed_body2 ->
           nullish parsed_body2 = false ->
           put_ok env2 = true ->
           final (persisted self (snd (SalesAgent_fetch self req2 env2 sys')))
           = get_prop parsed_body2 (js "final")).
Proof.
  intros Hp Hm Hb Hn Hput.
  assert (Hroute : forall r e, pathname r = js "/internal/save-final" ->
                               method r = js "POST" ->
                               SalesAgent_fetch self r e = save_final self r e).
  { intros r e Hp' Hm'. unfold SalesAgent_fetch. rewrite Hp', Hm'. reflexivity. }
  rewrite (Hroute _ _ Hp Hm).
  rewrite (save_final_run _ _ _ _ _ Hb Hn Hput).
  match goal with |- context [(Returned _, ?s)] => set (sys' := s) end.
  exists sys'. split; [reflexivity | ].
  destruct (persisted_with_final self sys (get_prop parsed_body (js "final")))
    as (Hf & Hmsg & Hd & Hr & Hc).
  rewrite (persisted_insert self sys sys' _ eq_refl).
  split; [exact Hf | ].
  split; [rewrite Hmsg; reflexivity | ].
  split; [exact Hd | ]. split; [exact Hr | ]. split; [exact Hc | ].
  split; [ | split; [reflexivity | split; [reflexivity | ]]].
  - intros other Hne. subst sys'. simpl. now rewrite lookup_insert_ne.
  - intros req2 env2 b2 Hp2 Hm2 Hb2 Hn2 Hput2.
    rewrite (Hroute _ _ Hp2 Hm2).
    rewrite (save_final_run _ _ _ _ _ Hb2 Hn2 Hput2). simpl snd.
    match goal with |- context [persisted self ?s] =>
      rewrite (persisted_insert self sys' s
                 (stored_with_final self sys' (get_prop b2 (js "final"))) eq_refl)
    end.
    reflexivity.
Qed.

(** Saving a final result on the sample session. *)
Lemma save_final_sets_only_final_witness :
  exists sys',
    SalesAgent_fetch (js "acme") (save_final_request (VStr (js "done")))
      inference_down acme_isolate
    = (Returned (Response_json (VObj [(js "ok", VBool true)])), sys')
    /\ final (persisted (js "acme") sys') = VStr (js "done")
    /\ dealMemory (persisted (js "acme") sys') = acme_memory.
Proof.
  destruct (save_final_sets_only_final (js "acme")
              (save_final_request (VStr (js "done"))) inference_down acme_isolate
              (VObj [(js "final", VStr (js "done"))])
              eq_refl eq_refl eq_refl eq_refl eq_refl)
    as (sys' & E & Hf & _ & Hd & _).
  exists sys'. split; [exact E | ]. split; [exact Hf | ].
  rewrite Hd. vm_compute. reflexivity.
Defined.

(** ** The front door *)

Lemma route_true request path verb :
  route request path verb = true ->
  url_pathname request = js path /\ http_method request = js verb.
Proof.
  unfold route. intros H. apply andb_true_iff in H as [Hp Hv].
  split; now apply jsstring_eqb_eq.
Qed.

(** A request for none of [routes] fails the test of each. *)
Lemma route_unmatched request routes path verb :
  ~ matches request routes -> In (path, verb) routes ->
  route request path verb = false.
Proof.
  intros Hno Hin. destruct (route request path verb) eqn:E; [ | reflexivity ].
  exfalso. apply Hno. exists path, verb. split; [exact Hin | now apply route_true].
Qed.

(** C5, as the code has it: a request whose method and path match none
    of the six routes the front door serves (the five of the interface
    table and [GET /api/debug]) is answered 404, and nothing changes. *)
Theorem unserved_route_not_found request env sys :
  ~ matches request SERVED_ROUTES ->
  fetch request env sys = (Returned NOT_FOUND, sys) /\ status NOT_FOUND = 404.
Proof.
  intros Hno. split; [ | reflexivity ]. unfold fetch.
  rewrite (route_unmatched request SERVED_ROUTES "/api/chat" "POST" Hno)
    by (simpl; tauto).
  rewrite (route_unmatched request SERVED_ROUTES "/" "GET" Hno)
    by (simpl; tauto).
  rewrite (route_unmatched request SERVED_ROUTES "/api/results" "GET" Hno)
    by (simpl; tauto).
  rewrite (route_unmatched request SERVED_ROUTES "/api/debug" "GET" Hno)
    by (simpl; tauto).
  rewrite (route_unmatched request SERVED_ROUTES "/api/end-call" "POST" Hno)
    by (simpl; tauto).
  rewrite (route_unmatched request SERVED_ROUTES "/api/reset" "POST" Hno)
    by (simpl; tauto).
  reflexivity.
Qed.

(** No route of [routes] has this path and method. *)
Ltac no_route :=
  let H := fresh in
  intros (path & verb & H & Hp & Hv); simpl in H;
  repeat (destruct H as [H | H];
          [ inversion H; subst; vm_compute in Hp; vm_compute in Hv;
            first [discriminate Hp | discriminate Hv] | ]);
  exact H.

(** [DELETE /api/chat] is not served. *)
Lemma unserved_route_not_found_witness :
  ~ matches (bare_request "/api/chat" "DELETE") SERVED_ROUTES
  /\ fetch (bare_request "/api/chat" "DELETE") quiet_platform acme_isolate
     = (Returned NOT_FOUND, acme_isolate).
Proof.
  assert (H : ~ matches (bare_request "/api/chat" "DELETE") SERVED_ROUTES)
    by no_route.
  split; [exact H | ].
  exact (proj1 (unserved_route_not_found _ quiet_platform acme_isolate H)).
Defined.

(** C5, as stated, fails: [GET /api/debug] is none of the five listed
    routes, and it is served (here with the session's state). *)
Lemma debug_route_is_served :
  ~ matches debug_request LISTED_ROUTES
  /\ exists resp,
       fst (fetch debug_request quiet_platform acme_isolate) = Returned resp
       /\ status resp = 200.
Proof.
  split; [no_route | ].
  eexists. split; vm_compute; reflexivity.
Qed.

(** ** The finalization workflow *)

Lemma Message_value_builds (m : Message) :
  negb (nullish (Message_value m))
  && is_string (get_prop (Message_value m) (js "role"))
  && renders (get_prop (Message_value m) (js "content"))
  = renders (content m).
Proof. destruct m as [r c]. destruct r; destruct c; reflexivity. Qed.

(** The transcript can be built from the state the object returns
    exactly when every stored message renders. *)
Lemma convo_builds_state (history : list Message) (s : AgentState) :
  convo_builds (AgentState_value history s)
  = forallb (fun m => renders (content m)) history.
Proof.
  assert (E : get_prop (AgentState_value history s) (js "messages")
              = VArr (List.map Message_value history)).
  { unfold AgentState_value. destruct (rollingSummary s), (final s); reflexivity. }
  unfold convo_builds. rewrite E. clear E. unfold coalesce. simpl nullish. cbv iota.
  induction history as [|m history IH]; [reflexivity | ].
  cbn [List.map forallb]. rewrite IH, Message_value_builds. reflexivity.
Qed.

(** The workflow's read of the session state. *)
Lemma state_fetch self accepted sys :
  SalesAgent_fetch self
    {| pathname := js "/internal/state"; method := js "GET"; json_body := None |}
    (no_inference accepted) sys
  = (Returned (Response_json
                 (AgentState_value (deref sys (messages (persisted self sys)))
                    (persisted self sys))), sys).
Proof. reflexivity. Qed.

(** The workflow's write of the final result. *)
Lemma save_final_fetch self accepted v :
  SalesAgent_fetch self
    {| pathname := js "/internal/save-final"; method := js "POST";
       json_body := Some (VObj [(js "final", v)]) |}
    (no_inference accepted)
  = save_final self
      {| pathname := js "/internal/save-final"; method := js "POST";
         json_body := Some (VObj [(js "final", v)]) |}
      (no_inference accepted).
Proof. reflexivity. Qed.



Lemma idFromName_inv name self sys sys' :
  idFromName name sys = (Returned self, sys') -> name = VStr self /\ sys' = sys.
Proof. destruct name; intros H; inversion H; auto. Qed.


(** The workflow writes to the storage in its last step only. *)
Lemma run_keeps_storage_on_throw sessionId env :
  keeps_storage_on_throw (FinalizeCallWorkflow_run sessionId env).
Proof.
  unfold FinalizeCallWorkflow_run.
  apply keeps_storage_on_throw_bind; [ auto with storage | intros ? ].
  apply keeps_storage_on_throw_bind;
    [ unfold idFromName; destruct sessionId;
      first [apply keeps_storage_ret | apply keeps_storage_throw]
    | intros stub ].
  apply keeps_storage_on_throw_bind; [ apply get_state_keeps_storage | intros ? ].
  apply keeps_storage_on_throw_bind;
    [ unfold response_json; destruct (body _);
      first [apply keeps_storage_ret | apply keeps_storage_throw]
    | intros ? ].
  do 6 (apply keeps_storage_on_throw_bind; [ auto with storage | intros ? ]).
  apply keeps_storage_on_throw_then_ret.
  rewrite save_final_fetch. apply save_final_keeps_storage_on_throw.
Qed.




(** A model that returns eight bullets: six are stored. *)
Example final_summary_of_eight :
  get_prop
    (final (persisted (js "acme")
              (snd (FinalizeCallWorkflow_run (VStr (js "acme"))
                      {| ai_summary := AIReturns eight_bullets;
                         ai_actions := AIReturns one_action;
                         ai_email := AIReturns email_text;
                         final_put_ok := true |}
                      acme_isolate))))
    (js "summaryBullets")
  = VArr [VStr (js "b1"); VStr (js "b2"); VStr (js "b3");
          VStr (js "b4"); VStr (js "b5"); VStr (js "b6")].
Proof. vm_compute. reflexivity. Qed.




(** ** The shared default array *)

Lemma grows_shared_same {A : Type} (m : Eff A) :
  (forall sys r sys', m sys = (r, sys') ->
     DEFAULT_STATE_messages sys' = DEFAULT_STATE_messages sys) ->
  grows_shared m.
Proof.
  intros H sys r sys' E. exists []. rewrite app_nil_r. exact (H _ _ _ E).
Qed.

Lemma grows_shared_ret {A : Type} (a : A) : grows_shared (ret a).
Proof. apply grows_shared_same. intros sys r sys' E. now inversion E. Qed.

Lemma grows_shared_throw {A : Type} : grows_shared (@throw A).
Proof. apply grows_shared_same. intros sys r sys' E. now inversion E. Qed.

Lemma grows_shared_gets {A : Type} (f : System -> A) : grows_shared (gets f).
Proof. apply grows_shared_same. intros sys r sys' E. now inversion E. Qed.

Lemma grows_shared_guard (ok : bool) : grows_shared (guard ok).
Proof. destruct ok; [apply grows_shared_ret | apply grows_shared_throw]. Qed.

Lemma grows_shared_AI_run (r : AIResult) : grows_shared (AI_run r).
Proof. destruct r; [apply grows_shared_throw | apply grows_shared_ret]. Qed.

Lemma grows_shared_save self accepted s : grows_shared (save self accepted s).
Proof.
  apply grows_shared_same. intros sys r sys' E. unfold save in E.
  destruct accepted; now inversion E.
Qed.

Lemma grows_shared_push (s : AgentState) (m : Message) : grows_shared (push s m).
Proof.
  intros sys r sys' E. unfold push in E. destruct (messages s); inversion E; subst.
  - now exists [m].
  - exists []. now rewrite app_nil_r.
Qed.

Lemma grows_shared_bind {A B : Type} (m : Eff A) (k : A -> Eff B) :
  grows_shared m -> (forall a, grows_shared (k a)) -> grows_shared (bind m k).
Proof.
  intros Hm Hk sys r sys2 E. unfold bind in E.
  destruct (m sys) as [[a|] sys1] eqn:Em.
  - destruct (Hm _ _ _ Em) as [t1 E1]. destruct (Hk a _ _ _ E) as [t2 E2].
    exists (t1 ++ t2). rewrite E2, E1. now rewrite app_assoc.
  - inversion E; subst. exact (Hm _ _ _ Em).
Qed.

#[local] Hint Resolve grows_shared_ret grows_shared_throw grows_shared_gets
  grows_shared_guard grows_shared_AI_run grows_shared_save grows_shared_push
  : shared.

Lemma grows_shared_memory_step (env : DOEnv) (s : AgentState) :
  grows_shared (memory_step env s).
Proof.
  unfold memory_step. destruct (memory_turn _); [ | apply grows_shared_ret ].
  repeat (apply grows_shared_bind; [ | intros ? ]); auto with shared.
Qed.

(** X1: a chat request to a session with nothing stored appends its
    user message to the module-level array [DEFAULT_STATE.messages],
    whether the turn completes or not; and that array is the message
    history of every session with nothing stored. *)
Theorem unstored_chat_appends_to_shared_array self req env sys parsed_body :
  objects sys !! self = None ->
  json_body req = Some parsed_body ->
  nullish parsed_body = false ->
  (exists rest,
      DEFAULT_STATE_messages (snd (chat self req env sys))
      = DEFAULT_STATE_messages sys
        ++ {| role := user; content := get_prop parsed_body (js "message") |} :: rest)
  /\ (forall other sys',
         objects sys' !! other = None ->
         deref sys' (messages (persisted other sys')) = DEFAULT_STATE_messages sys').
Proof.
  intros Hnone Hb Hn. split.
  - assert (Hrun : forall r sys',
               chat_pipeline self req env sys = (r, sys') ->
               exists rest,
                 DEFAULT_STATE_messages sys'
                 = DEFAULT_STATE_messages sys
                   ++ {| role := user; content := get_prop parsed_body (js "message") |}
                      :: rest).
    { intros r sys' E. unfold chat_pipeline in E.
      erewrite bind_returned in E by (unfold request_json; rewrite Hb; reflexivity).
      erewrite bind_returned in E by (unfold destructure; rewrite Hn; reflexivity).
      erewrite bind_returned in E
        by (unfold load, gets; rewrite Hnone; reflexivity).
      erewrite bind_returned in E by reflexivity.
      revert E.
      match goal with |- ?k ?s1 = _ -> _ =>
        assert (Hk : grows_shared k)
      end.
      { do 4 (apply grows_shared_bind; [ auto with shared | intros ? ]).
        apply grows_shared_bind; [ apply grows_shared_memory_step | intros ? ].
        repeat (apply grows_shared_bind; [ auto with shared | intros ? ]).
        auto with shared. }
      intros E. destruct (Hk _ _ _ E) as [tail Et].
      exists tail. rewrite Et. simpl. now rewrite <- app_assoc. }
    unfold chat, try_catch.
    destruct (chat_pipeline self req env sys) as [[resp|] sys'] eqn:E.
    + exact (Hrun _ _ eq_refl).
    + rewrite chat_fallback_run. exact (Hrun _ _ eq_refl).
  - intros other sys' Ho. unfold persisted. rewrite Ho. reflexivity.
Qed.

(** The first message of a new session stays in the shared array, and
    a second new session starts from it. *)
Lemma unstored_chat_appends_to_shared_array_witness :
  exists rest,
    DEFAULT_STATE_messages
      (snd (chat (js "first") (chat_request "Hello") inference_down fresh_isolate))
    = {| role := user; content := VStr (js "Hello") |} :: rest.
Proof.
  destruct (unstored_chat_appends_to_shared_array (js "first")
              (chat_request "Hello") inference_down fresh_isolate
              (VObj [(js "message", VStr (js "Hello"))])
              eq_refl eq_refl eq_refl)
    as [[rest E] _].
  exists rest. exact E.
Defined.



(** * Further properties *)

(** ** [lastN] *)

Lemma slice_from_skipn {A : Type} (l : list A) (start : Z) :
  0 <= start <= Z.of_nat (length l) ->
  slice_from l start = skipn (Z.to_nat start) l.
Proof.
  intros [H0 H1]. unfold slice_from, slice.
  destruct (start <? 0) eqn:E; [lia | ].
  destruct (Z.of_nat (length l) <? 0) eqn:E'; [lia | ].
  replace (Z.min start (Z.of_nat (length l))) with start by lia.
  replace (Z.min (Z.of_nat (length l)) (Z.of_nat (length l)))
    with (Z.of_nat (length l)) by lia.
  apply firstn_all2. rewrite length_skipn. lia.
Qed.

(** For a count that is not negative, [lastN] drops all but the last
    [n] elements. *)
Lemma lastN_skipn {A : Type} (arr : list A) (n : Z) :
  0 <= n -> lastN arr n = skipn (length arr - Z.to_nat n) arr.
Proof.
  intros Hn. unfold lastN. rewrite slice_from_skipn by lia.
  f_equal. lia.
Qed.

(** X3: for a count [n] that is not negative, [lastN(arr, n)] is the
    end of [arr]: [arr] is some older elements followed by it, and it
    has [n] elements, or all of them when [arr] has fewer. *)
Theorem lastN_is_the_end {A : Type} (arr : list A) (n : Z) :
  0 <= n ->
  (exists older, arr = older ++ lastN arr n)
  /\ length (lastN arr n) = Nat.min (Z.to_nat n) (length arr).
Proof.
  intros Hn. rewrite (lastN_skipn arr n Hn). split.
  - exists (firstn (length arr - Z.to_nat n) arr). symmetry. apply firstn_skipn.
  - rewrite length_skipn. lia.
Qed.

(** The last ten of twelve messages. *)
Lemma lastN_is_the_end_witness :
  0 <= 10
  /\ length (lastN twelve_messages 10) = 10%nat
  /\ exists older, twelve_messages = older ++ lastN twelve_messages 10.
Proof.
  assert (H : 0 <= 10) by lia.
  destruct (lastN_is_the_end twelve_messages 10 H) as [Hend Hlen].
  split; [exact H | ]. split; [ | exact Hend ].
  rewrite Hlen. reflexivity.
Defined.

(** ** [extractBetween] and [extractJsonObject] *)

(** A pattern whose first character does not occur before it is found
    where it stands. *)
Lemma indexOf_from_first (i : Z) (before rest : jsstring) (p : N) (pat : jsstring) :
  ~ In p before ->
  indexOf_from i (before ++ (p :: pat) ++ rest) (p :: pat)
  = i + Z.of_nat (length before).
Proof.
  revert i. induction before as [|c before IH]; intros i Hno.
  - assert (E : startsWith (p :: pat ++ rest) (p :: pat) = true)
      by (apply startsWith_prefix; now exists rest).
    cbn [app length indexOf_from]. rewrite E. cbn [Z.of_nat]. lia.
  - simpl in Hno.
    assert (Hc : (p =? c)%N = false) by (apply N.eqb_neq; intros ->; tauto).
    cbn [app indexOf_from startsWith]. rewrite Hc. simpl andb. cbv iota.
    rewrite IH by tauto. cbn [length]. lia.
Qed.

Lemma lastIndexOf_from_no_first (i : Z) (text : jsstring) (p : N) (pat : jsstring) :
  ~ In p text -> lastIndexOf_from i text (p :: pat) = -1.
Proof.
  revert i. induction text as [|c text IH]; intros i Hno; [reflexivity | ].
  simpl in Hno.
  assert (Hc : (p =? c)%N = false) by (apply N.eqb_neq; intros ->; tauto).
  cbn [lastIndexOf_from startsWith]. rewrite IH by tauto.
  rewrite Hc. reflexivity.
Qed.

(** A pattern whose first character does not occur after it is found,
    from the end, where it stands. *)
Lemma lastIndexOf_from_last (i : Z) (before rest : jsstring) (p : N) (pat : jsstring) :
  0 <= i -> ~ In p pat -> ~ In p rest ->
  lastIndexOf_from i (before ++ (p :: pat) ++ rest) (p :: pat)
  = i + Z.of_nat (length before).
Proof.
  revert i. induction before as [|c before IH]; intros i Hi Hpat Hrest.
  - assert (E : startsWith (p :: pat ++ rest) (p :: pat) = true)
      by (apply startsWith_prefix; now exists rest).
    cbn [app length lastIndexOf_from].
    rewrite lastIndexOf_from_no_first
      by (intros H; apply in_app_or in H; tauto).
    rewrite E. cbn [Z.of_nat]. simpl. lia.
  - cbn [app lastIndexOf_from]. cbv zeta.
    change (before ++ p :: pat ++ rest) with (before ++ (p :: pat) ++ rest).
    rewrite IH by (lia || assumption).
    destruct (i + 1 + Z.of_nat (length before) =? -1) eqn:E;
      [apply Z.eqb_eq in E; lia | ].
    cbn [length]. lia.
Qed.

(** [lastIndexOf] answers -1 for a pattern that does not occur. *)
Lemma lastIndexOf_from_found (i : Z) (text pat : jsstring) :
  lastIndexOf_from i text pat <> -1 -> contains text pat.
Proof.
  revert i. induction text as [|c text IH]; intros i; simpl.
  - destruct (startsWith [] pat) eqn:E; [ | congruence ]. intros _.
    apply startsWith_prefix in E as [rest E]. exists [], rest. exact E.
  - destruct (lastIndexOf_from (i + 1) text pat =? -1) eqn:El.
    + destruct (startsWith (c :: text) pat) eqn:E; [ | congruence ]. intros _.
      apply startsWith_prefix in E as [rest E]. exists [], rest. exact E.
    + intros _. apply Z.eqb_neq in El.
      destruct (IH _ El) as (before & after & ->).
      exists (c :: before), after. reflexivity.
Qed.

Lemma lastIndexOf_absent (text pat : jsstring) :
  ~ contains text pat -> lastIndexOf text pat = -1.
Proof.
  intros H. unfold lastIndexOf.
  destruct (Z.eq_dec (lastIndexOf_from 0 text pat) (-1)) as [E | E]; [exact E | ].
  exfalso. apply H. exact (lastIndexOf_from_found _ _ _ E).
Qed.

(** The middle of a text, cut out by its bounds. *)
Lemma slice_middle {A : Type} (before middle after : list A) :
  slice (before ++ middle ++ after)
        (Z.of_nat (length before))
        (Z.of_nat (length before) + Z.of_nat (length middle))
  = middle.
Proof.
  unfold slice. rewrite !length_app.
  destruct (Z.of_nat (length before) <? 0) eqn:E1;
    [apply Z.ltb_lt in E1; lia | ].
  destruct (Z.of_nat (length before) + Z.of_nat (length middle) <? 0) eqn:E2;
    [apply Z.ltb_lt in E2; lia | ].
  rewrite !Z.min_l by lia.
  replace (Z.to_nat (Z.of_nat (length before) + Z.of_nat (length middle)
                     - Z.of_nat (length before))) with (length middle) by lia.
  rewrite Nat2Z.id.
  rewrite skipn_app, skipn_all, Nat.sub_diag. simpl.
  rewrite drop_0.
  rewrite firstn_app, firstn_all, Nat.sub_diag. simpl. apply app_nil_r.
Qed.

(** The text between a start tag that occurs first where it stands and
    an end tag that occurs last where it stands. *)
Lemma extractBetween_between
  (before body after : jsstring) (s : N) (startTag : jsstring)
  (e : N) (endTag : jsstring) :
  ~ In s before -> ~ In e endTag -> ~ In e after ->
  extractBetween (before ++ (s :: startTag) ++ body ++ (e :: endTag) ++ after)
    (s :: startTag) (e :: endTag)
  = Some (trim body).
Proof.
  intros Hs He Ha.
  unfold extractBetween, indexOf, lastIndexOf.
  rewrite (indexOf_from_first 0 before (body ++ (e :: endTag) ++ after) s startTag Hs).
  replace (before ++ (s :: startTag) ++ body ++ (e :: endTag) ++ after)
    with ((before ++ (s :: startTag) ++ body) ++ (e :: endTag) ++ after)
    by (now rewrite <- !app_assoc).
  rewrite (lastIndexOf_from_last 0 _ after e endTag) by (lia || assumption).
  rewrite !length_app. cbn [length].
  match goal with |- (if ?c then _ else _) = _ => destruct c eqn:E end.
  { exfalso. apply orb_true_iff in E as [E | E];
      [apply orb_true_iff in E as [E | E]; apply Z.eqb_eq in E
      | apply Z.leb_le in E]; lia. }
  f_equal. f_equal.
  etransitivity;
    [ | apply (slice_middle (before ++ s :: startTag) body ((e :: endTag) ++ after)) ].
  f_equal.
  - now rewrite <- !app_assoc.
  - rewrite length_app. cbn [length]. lia.
  - rewrite length_app. cbn [length]. lia.
Qed.

(** X4: [extractBetween] returns the trimmed text between the first
    start tag and the last end tag (here: the start tag's first
    character does not occur before it, the end tag's first character
    does not occur after it); it returns [null] when either tag is
    missing. *)
Theorem extractBetween_round_trip
  (before body after : jsstring) (s : N) (startTag : jsstring)
  (e : N) (endTag : jsstring) :
  ~ In s before -> ~ In e endTag -> ~ In e after ->
  extractBetween (before ++ (s :: startTag) ++ body ++ (e :: endTag) ++ after)
    (s :: startTag) (e :: endTag)
  = Some (trim body)
  /\ (forall text,
         ~ contains text (s :: startTag) \/ ~ contains text (e :: endTag) ->
         extractBetween text (s :: startTag) (e :: endTag) = None).
Proof.
  intros Hs He Ha. split.
  - now apply extractBetween_between.
  - intros text [H | H]; unfold extractBetween.
    + apply indexOf_absent in H. now rewrite H.
    + apply lastIndexOf_absent in H. rewrite H.
      now rewrite orb_true_r.
Qed.

(** The character does not occur in the (closed) text. *)
Ltac not_in :=
  let H := fresh in
  intros H; vm_compute in H;
  repeat (destruct H as [H | H]; [discriminate H | ]);
  exact H.

(** The tagged block of the sample answer. *)
Lemma extractBetween_round_trip_witness :
  extractBetween tagged_answer (js "<json>") (js "</json>")
  = Some (js "{" ++ quoted "reply" ++ js ":" ++ quoted "Ask about budget."
          ++ js "," ++ quoted "followUps" ++ js ":[" ++ quoted "Who decides?"
          ++ js "," ++ quoted "By when?" ++ js "]}").
Proof.
  refine (proj1 (extractBetween_round_trip
                   (js "Sure. ")
                   (js "{" ++ quoted "reply" ++ js ":" ++ quoted "Ask about budget."
                    ++ js "," ++ quoted "followUps" ++ js ":[" ++ quoted "Who decides?"
                    ++ js "," ++ quoted "By when?" ++ js "]}")
                   (js " Good luck!") 60%N (js "json>") 60%N (js "/json>") _ _ _));
    not_in.
Defined.

(** The span from a first opening brace to a last closing brace. *)
Lemma extractJsonObject_span (before middle after : jsstring) :
  ~ In 123%N before -> ~ In 125%N after ->
  extractJsonObject (before ++ js "{" ++ middle ++ js "}" ++ after)
  = Some (js "{" ++ middle ++ js "}").
Proof.
  intros Hb Ha. change (js "{") with [123%N]. change (js "}") with [125%N].
  unfold extractJsonObject, indexOf, lastIndexOf.
  change (js "{") with [123%N]. change (js "}") with [125%N].
  rewrite (indexOf_from_first 0 before (middle ++ [125%N] ++ after) 123%N [] Hb).
  replace (before ++ [123%N] ++ middle ++ [125%N] ++ after)
    with ((before ++ [123%N] ++ middle) ++ [125%N] ++ after)
    by (now rewrite <- !app_assoc).
  rewrite (lastIndexOf_from_last 0 _ after 125%N [])
    by (lia || assumption || (intros []) ).
  rewrite !length_app. cbn [length].
  match goal with |- (if ?c then _ else _) = _ => destruct c eqn:E end.
  { exfalso. apply orb_true_iff in E as [E | E];
      [apply orb_true_iff in E as [E | E]; apply Z.eqb_eq in E
      | apply Z.leb_le in E]; lia. }
  f_equal.
  etransitivity;
    [ | apply (slice_middle before ([123%N] ++ middle ++ [125%N]) after) ].
  f_equal.
  - now rewrite <- !app_assoc.
  - rewrite !length_app. cbn [length]. lia.
Qed.

(** X5: [extractJsonObject] returns the span from the first opening
    brace to the last closing brace, both included, whatever stands
    between them; it returns [null] when either brace is missing. *)
Theorem extractJsonObject_round_trip (before middle after : jsstring) :
  ~ In 123%N before -> ~ In 125%N after ->
  extractJsonObject (before ++ js "{" ++ middle ++ js "}" ++ after)
  = Some (js "{" ++ middle ++ js "}")
  /\ (forall text,
         ~ contains text (js "{") \/ ~ contains text (js "}") ->
         extractJsonObject text = None).
Proof.
  intros Hb Ha. split; [now apply extractJsonObject_span | ].
  intros text [H | H]; unfold extractJsonObject.
  - apply indexOf_absent in H. now rewrite H.
  - apply lastIndexOf_absent in H. rewrite H. now rewrite orb_true_r.
Qed.

(** Prose around nested braces. *)
Lemma extractJsonObject_round_trip_witness :
  extractJsonObject (js "Result: {" ++ quoted "a" ++ js ":{}} done")
  = Some (js "{" ++ quoted "a" ++ js ":{}}").
Proof.
  refine (proj1 (extractJsonObject_round_trip
                   (js "Result: ") (quoted "a" ++ js ":{}") (js " done") _ _));
    not_in.
Defined.

(** ** The chat handler's parse, continued *)

(** The text handed to [JSON.parse] when the answer carries one tagged
    block, with no [<] in the prose around it. *)
Lemma tagged_json_between (before body after : jsstring) :
  ~ In 60%N before -> ~ In 60%N after ->
  tagged_json (before ++ js "<json>" ++ body ++ js "</json>" ++ after) = trim body.
Proof.
  intros Hb Ha. unfold tagged_json.
  change (js "<json>") with (60%N :: js "json>").
  change (js "</json>") with (60%N :: js "/json>").
  rewrite (extractBetween_between before body after 60%N (js "json>") 60%N
             (js "/json>") Hb) by (assumption || not_in).
  reflexivity.
Qed.



Lemma coalesce_not_nullish (x d : value) :
  nullish d = false -> nullish (coalesce x d) = false.
Proof. intros H. unfold coalesce. destruct (nullish x) eqn:E; assumption. Qed.



(** X8: where the generic reply is and is not used.  An empty model
    answer gives the empty reply; an answer that starts with a brace
    and yields no JSON, and a parsed object without [reply], give the
    generic reply. *)
Theorem chat_parse_generic_reply (aiResp : AIOutput) :
  (normalizeAIText aiResp = [] ->
   chat_parse aiResp = (VStr [], GENERIC_FOLLOWUPS))
  /\ (JSON_parse (tagged_json (normalizeAIText aiResp)) = None ->
      startsWith (trim (normalizeAIText aiResp)) (js "{") = true ->
      chat_parse aiResp = (VStr GENERIC_REPLY, GENERIC_FOLLOWUPS))
  /\ (forall props,
         JSON_parse (tagged_json (normalizeAIText aiResp)) = Some (VObj props) ->
         own_property props (js "reply") = None ->
         fst (chat_parse aiResp) = VStr GENERIC_REPLY).
Proof.
  split; [ | split ].
  - intros Hraw.
    rewrite (chat_parse_plain aiResp); rewrite Hraw; reflexivity.
  - intros Hnone Hbrace.
    unfold chat_parse, parseTagged, safeJsonParse. cbv zeta.
    rewrite Hnone, Hbrace. reflexivity.
  - intros props Hsome Hreply.
    unfold chat_parse, parseTagged, safeJsonParse. cbv zeta.
    rewrite Hsome. cbn [truthy negb andb fst].
    unfold get_prop_opt at 1, get_prop. cbn [nullish]. rewrite Hreply.
    reflexivity.
Qed.

(** A truncated object as the model's answer. *)
Lemma chat_parse_generic_reply_witness :
  chat_parse (AIString (js "{ reply: Ask about"))
  = (VStr GENERIC_REPLY, GENERIC_FOLLOWUPS).
Proof.
  refine (proj1 (proj2 (chat_parse_generic_reply (AIString (js "{ reply: Ask about"))))
            _ _).
  - vm_compute. reflexivity.
  - vm_compute. reflexivity.
Defined.

(** X9: a tagged block that does not parse is not retried with the
    brace extraction: unless the answer starts with a brace, the whole
    raw answer, tags included, becomes the reply, with the two generic
    follow-ups. *)
Theorem unparsable_tagged_block_becomes_reply (aiResp : AIOutput)
  (before body after : jsstring) :
  normalizeAIText aiResp = before ++ js "<json>" ++ body ++ js "</json>" ++ after ->
  ~ In 60%N before -> ~ In 60%N after ->
  JSON_parse (trim body) = None ->
  startsWith (trim (normalizeAIText aiResp)) (js "{") = false ->
  chat_parse aiResp = (VStr (normalizeAIText aiResp), GENERIC_FOLLOWUPS).
Proof.
  intros Hraw Hb Ha Hparse Hbrace.
  assert (Htj : tagged_json (normalizeAIText aiResp) = trim body)
    by (rewrite Hraw; now apply tagged_json_between).
  unfold chat_parse, parseTagged, safeJsonParse. cbv zeta.
  rewrite Htj, Hparse, Hbrace. reflexivity.
Qed.

(** The block holds prose before its object: the brace extraction would
    have found the object, and the reply is the raw answer. *)
Lemma unparsable_tagged_block_becomes_reply_witness :
  (exists obj, extractJsonObject tagged_prose = Some obj /\ JSON_parse obj <> None)
  /\ chat_parse (AIString tagged_prose) = (VStr tagged_prose, GENERIC_FOLLOWUPS).
Proof.
  split.
  - eexists. split; [vm_compute; reflexivity | vm_compute; discriminate].
  - apply (unparsable_tagged_block_becomes_reply (AIString tagged_prose) []
             (js "Here: {" ++ quoted "reply" ++ js ":" ++ quoted "Ask." ++ js "}")
             []).
    + vm_compute. reflexivity.
    + intros [].
    + intros [].
    + vm_compute. reflexivity.
    + vm_compute. reflexivity.
Defined.

(** X10: an answer without a [<json>] tag in which an object stands in
    prose (no opening brace before it, no closing brace after it) is
    read through the brace extraction: the reply is the object's
    [reply], and the follow-ups are the generic ones when the object
    has none. *)
Theorem chat_untagged_object_answer (aiResp : AIOutput)
  (before middle after : jsstring) (props : list (jsstring * value))
  (reply : value) :
  normalizeAIText aiResp = before ++ js "{" ++ middle ++ js "}" ++ after ->
  ~ In 123%N before -> ~ In 125%N after ->
  ~ contains (normalizeAIText aiResp) (js "<json>") ->
  JSON_parse (js "{" ++ middle ++ js "}") = Some (VObj props) ->
  own_property props (js "reply") = Some reply -> nullish reply = false ->
  fst (chat_parse aiResp) = reply
  /\ (own_property props (js "followUps") = None ->
      snd (chat_parse aiResp) = GENERIC_FOLLOWUPS).
Proof.
  intros Hraw Hb Ha Hno Hparse Hreply Hnn.
  assert (Htj : tagged_json (normalizeAIText aiResp) = js "{" ++ middle ++ js "}").
  { unfold tagged_json. rewrite (extractBetween_absent _ _ _ Hno).
    rewrite Hraw, (extractJsonObject_span before middle after Hb Ha).
    reflexivity. }
  unfold chat_parse, parseTagged, safeJsonParse. cbv zeta.
  rewrite Htj, Hparse.
  cbn [truthy negb andb fst snd].
  unfold get_prop_opt, get_prop. cbn [nullish].
  rewrite Hreply. unfold coalesce. rewrite Hnn.
  split; [reflexivity | ]. intros Hfu. rewrite Hfu. reflexivity.
Qed.

(** The sample answer. *)
Lemma chat_untagged_object_answer_witness :
  chat_parse (AIString untagged_answer) = (VStr (js "Ask."), GENERIC_FOLLOWUPS).
Proof.
  destruct (chat_untagged_object_answer (AIString untagged_answer)
              (js "Sure: ") (quoted "reply" ++ js ":" ++ quoted "Ask.") (js " ok")
              [(js "reply", VStr (js "Ask."))] (VStr (js "Ask."))) as [Hr Hf].
  - vm_compute. reflexivity.
  - not_in.
  - not_in.
  - apply indexOf_absent. vm_compute. reflexivity.
  - vm_compute. reflexivity.
  - reflexivity.
  - reflexivity.
  - rewrite (surjective_pairing (chat_parse (AIString untagged_answer))).
    rewrite Hr, (Hf eq_refl). reflexivity.
Defined.

(** ** Storage: round trip, isolation, reset *)

(** X11: [save] followed by [load] gives the state back: the same deal
    memory, turn count and [final], the rolling summary (the empty
    string in place of a null one), and as history a copy of the array
    the state referred to, owned by the session from then on; no other
    session's record changes.  A write the storage refuses stores
    nothing. *)
Theorem save_then_load self s sys :
  (exists sys',
      save self true s sys = (Returned tt, sys')
      /\ messages (persisted self sys') = Own (deref sys (messages s))
      /\ dealMemory (persisted self sys') = dealMemory s
      /\ rollingSummary (persisted self sys') = coalesce (rollingSummary s) (VStr [])
      /\ userTurnCount (persisted self sys') = userTurnCount s
      /\ final (persisted self sys') = final s
      /\ forall other, other <> self -> objects sys' !! other = objects sys !! other)
  /\ save self false s sys = (Thrown, sys).
Proof.
  split; [ | reflexivity ].
  eexists. split; [reflexivity | ].
  unfold persisted. cbn [objects]. rewrite lookup_insert_eq. simpl.
  rewrite spread_all_fields.
  repeat split.
  intros other Hne. now rewrite lookup_insert_ne.
Qed.




(** X13: a request to the object whose path and method match none of
    its four routes (a wrong method on a served path included) is
    answered 404, and nothing changes. *)
Theorem internal_unserved_route_not_found self req env sys :
  ~ internal_matches req ->
  SalesAgent_fetch self req env sys = (Returned NOT_FOUND, sys)
  /\ status NOT_FOUND = 404.
Proof.
  intros Hno. split; [ | reflexivity ].
  destruct (SalesAgent_fetch_route self req env)
    as [(Hp & Hm & _) | [(Hp & Hm & _) | [(Hp & Hm & _) | [(Hp & Hm & _) | E]]]].
  - exfalso. apply Hno. exists "/internal/chat"%string, "POST"%string.
    simpl. tauto.
  - exfalso. apply Hno. exists "/internal/state"%string, "GET"%string.
    simpl. tauto.
  - exfalso. apply Hno. exists "/internal/save-final"%string, "POST"%string.
    simpl. tauto.
  - exfalso. apply Hno. exists "/internal/reset"%string, "POST"%string.
    simpl. tauto.
  - now rewrite E.
Qed.

(** [GET /internal/chat]: the path is served, the method is not. *)
Lemma internal_unserved_route_not_found_witness :
  ~ internal_matches (internal "/internal/chat" "GET" None)
  /\ SalesAgent_fetch (js "acme") (internal "/internal/chat" "GET" None)
       plain_reply acme_isolate
     = (Returned NOT_FOUND, acme_isolate).
Proof.
  assert (H : ~ internal_matches (internal "/internal/chat" "GET" None)) by no_route.
  split; [exact H | ].
  exact (proj1 (internal_unserved_route_not_found (js "acme") _ plain_reply
                  acme_isolate H)).
Defined.

(** X14: a reset answers [{ ok: true, message: "State reset" }] and
    removes the session's record; the state read back afterwards is the
    default one (default deal memory, empty rolling summary, turn count
    0, no [final]) with, as history, the shared default array as it then
    is; a second reset changes nothing more. *)
Theorem reset_then_state self env env' sys :
  fst (SalesAgent_fetch self reset_request env sys)
  = Returned (Response_json (VObj [(js "ok", VBool true);
                                   (js "message", VStr (js "State reset"))]))
  /\ objects (snd (SalesAgent_fetch self reset_request env sys)) !! self = None
  /\ persisted self (snd (SalesAgent_fetch self reset_request env sys))
     = DEFAULT_STATE
  /\ SalesAgent_fetch self state_request env'
       (snd (SalesAgent_fetch self reset_request env sys))
     = (Returned (Response_json
                    (AgentState_value (DEFAULT_STATE_messages sys) DEFAULT_STATE)),
        snd (SalesAgent_fetch self reset_request env sys))
  /\ snd (SalesAgent_fetch self reset_request env'
            (snd (SalesAgent_fetch self reset_request env sys)))
     = snd (SalesAgent_fetch self reset_request env sys).
Proof.
  change (SalesAgent_fetch self reset_request env) with (reset self).
  change (SalesAgent_fetch self reset_request env') with (reset self).
  change (SalesAgent_fetch self state_request env') with (get_state self).
  assert (Hnone : objects (snd (reset self sys)) !! self = None)
    by (unfold reset; simpl; apply lookup_delete_eq).
  split; [reflexivity | ]. split; [exact Hnone | ].
  split; [apply reset_clears | ]. split.
  - unfold get_state, load, bind, gets, ret. rewrite Hnone. reflexivity.
  - unfold reset. simpl. f_equal. apply delete_id. apply lookup_delete_eq.
Qed.

(** ** The memory step *)

(** Two pipelines with the same first step agree when their
    continuations agree on what that step returns. *)
Lemma bind_ext {A B : Type} (m : Eff A) (k k' : A -> Eff B) sys :
  (forall a sys1, m sys = (Returned a, sys1) -> k a sys1 = k' a sys1) ->
  bind m k sys = bind m k' sys.
Proof. intros H. unfold bind. destruct (m sys) as [[a|] sys1]; auto. Qed.

(** The memory step runs on the positive multiples of 3. *)
Lemma memory_turn_multiple (n : Z) :
  memory_turn n = true <-> exists k, 0 < k /\ n = 3 * k.
Proof.
  unfold memory_turn. rewrite andb_true_iff, Z.ltb_lt, Z.eqb_eq. split.
  - intros [Hpos Hrem]. exists (Z.quot n 3).
    pose proof (Z.quot_rem' n 3) as E. rewrite Hrem in E. lia.
  - intros (k & Hk & ->). split; [lia | ].
    rewrite Z.mul_comm. apply Z.rem_mul. lia.
Qed.

Lemma memory_turn_off (n : Z) :
  ~ (exists k, 0 < k /\ n = 3 * k) -> memory_turn n = false.
Proof.
  intros H. destruct (memory_turn n) eqn:E; [ | reflexivity ].
  exfalso. apply H. now apply memory_turn_multiple.
Qed.

Lemma memory_step_off env s :
  memory_turn (userTurnCount s) = false -> memory_step env s = ret s.
Proof. intros H. unfold memory_step. now rewrite H. Qed.

(** Off a memory turn the pipeline does not consult the extraction
    call. *)
Lemma chat_pipeline_ignores_memory self req env r sys :
  memory_turn (userTurnCount (persisted self sys) + 1) = false ->
  chat_pipeline self req (with_memory env r) sys = chat_pipeline self req env sys.
Proof.
  intros Hoff. unfold chat_pipeline.
  apply bind_ext. intros b sys1 E1. apply request_json_inv in E1 as [_ ->].
  apply bind_ext. intros msg sys2 E2. apply destructure_inv in E2 as (_ & _ & ->).
  apply bind_ext. intros s sys3 E3. apply gets_inv in E3 as [-> ->].
  apply bind_ext. intros s2 sys4 E4.
  apply push_fields in E4 as (_ & _ & _ & P4 & _).
  apply bind_ext. intros history sys5 _.
  apply bind_ext. intros u1 sys6 _.
  apply bind_ext. intros u2 sys7 _.
  apply bind_ext. intros aiResp sys8 _.
  rewrite !memory_step_off by (simpl; rewrite P4; exact Hoff).
  reflexivity.
Qed.

(** The rolling summary of a state is not [null] or [undefined] once the
    persisted one has gone through the memory step. *)
Lemma persisted_rollingSummary_not_nullish self sys :
  nullish (rollingSummary (persisted self sys)) = false.
Proof.
  unfold persisted, from_storage. destruct (objects sys !! self); simpl.
  - now apply coalesce_not_nullish.
  - reflexivity.
Qed.

Lemma memory_result_rollingSummary self env sys :
  coalesce (rollingSummary (memory_result env (persisted self sys))) (VStr [])
  = rollingSummary (memory_result env (persisted self sys)).
Proof.
  assert (H : nullish (rollingSummary (memory_result env (persisted self sys)))
              = false).
  { pose proof (persisted_rollingSummary_not_nullish self sys) as Hp.
    unfold memory_result.
    destruct (memory_turn _); [ | exact Hp ].
    destruct (ai_memory env) as [ | memResp ]; [exact Hp | ].
    unfold memory_merge. destruct (truthy _); [ | exact Hp ].
    simpl. now apply coalesce_not_nullish. }
  unfold coalesce. now rewrite H.
Qed.

(** The deal memory and the rolling summary persisted by a turn that
    completes. *)
Lemma chat_pipeline_persists_memory self req env sys resp sys' :
  chat_pipeline self req env sys = (Returned resp, sys') ->
  dealMemory (persisted self sys') = dealMemory (memory_result env (persisted self sys))
  /\ rollingSummary (persisted self sys')
     = rollingSummary (memory_result env (persisted self sys))
  /\ final (persisted self sys') = final (persisted self sys)
  /\ resp = Response_json
              (turn_body (response_field resp (js "reply"))
                 (response_field resp (js "followUps"))
                 (persisted self sys) (memory_result env (persisted self sys))).
Proof.
  intros E.
  destruct (chat_pipeline_returned _ _ _ _ _ _ E)
    as (b & aiResp & _ & _ & _ & -> & Eo).
  rewrite (persisted_insert _ _ _ _ Eo). simpl.
  rewrite spread_all_fields.
  split; [reflexivity | ]. split; [apply memory_result_rollingSummary | ].
  split; reflexivity.
Qed.

(** X15: on a turn whose number is not a positive multiple of 3 the
    chat handler does not consult the extraction call (its outcome
    changes neither the answer nor the resulting system), and the
    persisted deal memory and rolling summary stay what they were,
    whether the turn completes or not. *)
Theorem off_turn_leaves_memory self req env sys :
  ~ (exists k, 0 < k /\ userTurnCount (persisted self sys) + 1 = 3 * k) ->
  (forall r, chat self req (with_memory env r) sys = chat self req env sys)
  /\ dealMemory (persisted self (snd (chat self req env sys)))
     = dealMemory (persisted self sys)
  /\ rollingSummary (persisted self (snd (chat self req env sys)))
     = rollingSummary (persisted self sys).
Proof.
  intros Hno. apply memory_turn_off in Hno. split.
  - intros r. unfold chat, try_catch.
    now rewrite (chat_pipeline_ignores_memory self req env r sys Hno).
  - destruct (fst (chat_pipeline self req env sys)) as [resp|] eqn:E.
    + rewrite (chat_on_return _ _ _ _ _ E).
      destruct (chat_pipeline self req env sys) as [r sys'] eqn:Ep.
      simpl in E. subst r. simpl.
      destruct (chat_pipeline_persists_memory _ _ _ _ _ _ Ep) as (-> & -> & _).
      unfold memory_result. rewrite Hno. auto.
    + rewrite (persisted_same _ _ _ (proj2 (chat_on_throw _ _ _ _ E))). auto.
Qed.

(** The fourth turn of the session ["beta"], with an extraction that
    would blank the customer name. *)
Lemma off_turn_leaves_memory_witness :
  ~ (exists k, 0 < k
               /\ userTurnCount (persisted (js "beta") two_sessions) + 1 = 3 * k)
  /\ dealMemory (persisted (js "beta")
                   (snd (chat (js "beta") (chat_request "And the price?")
                           blanking_memory two_sessions)))
     = dealMemory (persisted (js "beta") two_sessions).
Proof.
  assert (H : ~ (exists k, 0 < k
                   /\ userTurnCount (persisted (js "beta") two_sessions) + 1
                      = 3 * k)).
  { assert (Ec : userTurnCount (persisted (js "beta") two_sessions) = 3)
      by (vm_compute; reflexivity).
    rewrite Ec. intros (k & Hk & E). lia. }
  split; [exact H | ].
  exact (proj1 (proj2 (off_turn_leaves_memory (js "beta")
                         (chat_request "And the price?") blanking_memory
                         two_sessions H))).
Defined.

(** A memory turn that completes has had its extraction call return. *)
Lemma chat_pipeline_returned_memory self req env sys resp sys' :
  chat_pipeline self req env sys = (Returned resp, sys') ->
  memory_turn (userTurnCount (persisted self sys) + 1) = true ->
  exists memResp, ai_memory env = AIReturns memResp.
Proof.
  intros H Hon. unfold chat_pipeline in H. do 11 step H.
  apply request_json_inv in E as [Eb ->].
  apply destructure_inv in E0 as (Hn & -> & ->).
  apply gets_inv in E1 as [-> ->].
  apply push_fields in E2 as (_ & _ & _ & P4 & _).
  apply memory_step_inv in E7 as [_ [[Hoff _] | (_ & memResp & Emem & _)]].
  - simpl in Hoff. rewrite P4 in Hoff. unfold persisted in Hon. congruence.
  - eauto.
Qed.

(** X16: on every third turn a failing extraction call costs the whole
    turn: although the chat call may have returned a reply, the handler
    answers with the fallback body and stores nothing, so the turn is
    not counted and the same turn number comes up again. *)
Theorem memory_turn_needs_extraction self req env sys k :
  0 < k -> userTurnCount (persisted self sys) + 1 = 3 * k ->
  ai_memory env = AIThrows ->
  fst (chat self req env sys)
  = Returned (Response_json (fallback_body (dealMemory (persisted self sys))))
  /\ objects (snd (chat self req env sys)) = objects sys
  /\ userTurnCount (persisted self (snd (chat self req env sys))) + 1 = 3 * k.
Proof.
  intros Hk Hn Hmem.
  assert (Hon : memory_turn (userTurnCount (persisted self sys) + 1) = true)
    by (apply memory_turn_multiple; eauto).
  assert (Ht : fst (chat_pipeline self req env sys) = Thrown).
  { destruct (chat_pipeline self req env sys) as [[resp|] sys'] eqn:E;
      [ | reflexivity ].
    destruct (chat_pipeline_returned_memory _ _ _ _ _ _ E Hon) as [memResp Em].
    congruence. }
  destruct (chat_on_throw _ _ _ _ Ht) as [Ea Eo].
  split; [exact Ea | ]. split; [exact Eo | ].
  now rewrite (persisted_same _ _ _ Eo).
Qed.

(** The third turn of the sample session, the extraction call failing. *)
Lemma memory_turn_needs_extraction_witness :
  ai_reply extraction_down = says (js "Noted.")
  /\ fst (chat (js "acme") (chat_request "Let us move on") extraction_down
            acme_isolate)
     = Returned (Response_json (fallback_body acme_memory))
  /\ objects (snd (chat (js "acme") (chat_request "Let us move on")
                     extraction_down acme_isolate))
     = objects acme_isolate.
Proof.
  split; [reflexivity | ].
  assert (Hk : 0 < 1) by lia.
  assert (Hn : userTurnCount (persisted (js "acme") acme_isolate) + 1 = 3 * 1)
    by (vm_compute; reflexivity).
  destruct (memory_turn_needs_extraction (js "acme")
              (chat_request "Let us move on") extraction_down acme_isolate 1
              Hk Hn eq_refl) as (Ea & Eo & _).
  split; [ | exact Eo ].
  rewrite Ea. vm_compute. reflexivity.
Defined.



(** X18: the fallback answer reports turn count 0 and an empty rolling
    summary whatever the session has persisted, while the persisted
    count and summary stay what they were; only the deal memory of the
    answer is the persisted one. *)
Theorem fallback_reports_no_progress self req env sys :
  fst (chat_pipeline self req env sys) = Thrown ->
  exists resp,
    fst (chat self req env sys) = Returned resp
    /\ response_field resp (js "userTurnCount") = VInt 0
    /\ response_field resp (js "rollingSummary") = VStr []
    /\ response_field resp (js "dealMemory")
       = DealMemory_value (dealMemory (persisted self sys))
    /\ userTurnCount (persisted self (snd (chat self req env sys)))
       = userTurnCount (persisted self sys)
    /\ rollingSummary (persisted self (snd (chat self req env sys)))
       = rollingSummary (persisted self sys).
Proof.
  intros Ht. destruct (chat_on_throw _ _ _ _ Ht) as [Ea Eo].
  eexists. split; [exact Ea | ].
  rewrite (persisted_same _ _ _ Eo). repeat split.
Qed.

(** The sample session is two turns old and has a summary; the answer
    to a request that fails says 0 and the empty string. *)
Lemma fallback_reports_no_progress_witness :
  userTurnCount (persisted (js "acme") acme_isolate) = 2
  /\ rollingSummary (persisted (js "acme") acme_isolate)
     = VStr (js "Price objection")
  /\ exists resp,
       fst (chat (js "acme") (chat_request "Hello?") inference_down acme_isolate)
       = Returned resp
       /\ response_field resp (js "userTurnCount") = VInt 0
       /\ response_field resp (js "rollingSummary") = VStr [].
Proof.
  split; [vm_compute; reflexivity | ]. split; [vm_compute; reflexivity | ].
  assert (Ht : fst (chat_pipeline (js "acme") (chat_request "Hello?")
                      inference_down acme_isolate) = Thrown)
    by (vm_compute; reflexivity).
  destruct (fallback_reports_no_progress (js "acme") (chat_request "Hello?")
              inference_down acme_isolate Ht) as (resp & Ea & Ec & Er & _).
  exists resp. auto.
Defined.

(** ** The front door: validation and forwarding *)

(** A request for one route fails the test of any other. *)
Lemma route_elsewhere request path verb path' verb' :
  route request path verb = true ->
  jsstring_eqb (js path) (js path') && jsstring_eqb (js verb) (js verb') = false ->
  route request path' verb' = false.
Proof.
  intros H E. apply route_true in H as [Hp Hv]. unfold route.
  now rewrite Hp, Hv.
Qed.

Lemma truthy_not_nullish (v : value) : truthy v = true -> nullish v = false.
Proof. now destruct v. Qed.

Lemma get_prop_nullish (v : value) key : nullish v = true -> get_prop v key = VUndefined.
Proof. now destruct v. Qed.

Lemma truthy_prop_not_nullish (v : value) key :
  truthy (get_prop v key) = true -> nullish v = false.
Proof.
  intros H. destruct (nullish v) eqn:E; [ | reflexivity ].
  rewrite (get_prop_nullish v key E) in H. discriminate H.
Qed.



(** X20: a request that lacks what its route requires is answered 400
    and changes nothing (no object is reached, no workflow instance
    created): [/api/chat] without a truthy [sessionId] or a truthy
    [message] (an empty message included), [/api/end-call] and
    [/api/reset] without a truthy [sessionId], [/api/results] and
    [/api/debug] without a non-empty [sessionId] in the query. *)
Theorem missing_fields_are_rejected request env sys :
  (forall parsed,
      route request "/api/chat" "POST" = true ->
      request_body request = Some parsed -> nullish parsed = false ->
      truthy (get_prop parsed (js "sessionId"))
      && truthy (get_prop parsed (js "message")) = false ->
      fetch request env sys
      = (Returned (Response_text (js "Missing sessionId or message") 400), sys))
  /\ (forall path parsed,
         In path ["/api/end-call"; "/api/reset"]%string ->
         route request path "POST" = true ->
         request_body request = Some parsed -> nullish parsed = false ->
         truthy (get_prop parsed (js "sessionId")) = false ->
         fetch request env sys
         = (Returned (Response_text (js "Missing sessionId") 400), sys))
  /\ (forall path,
         In path QUERY_ROUTES ->
         route request path "GET" = true ->
         default [] (searchParams_sessionId request) = [] ->
         fetch request env sys
         = (Returned (Response_text (js "Missing sessionId") 400), sys)).
Proof.
  split; [ | split ].
  - intros parsed Hroute Hbody Hn Hmissing.
    unfold fetch. rewrite Hroute, Hbody.
    erewrite bind_returned by reflexivity.
    erewrite bind_returned by (rewrite Hn; reflexivity).
    cbv zeta. rewrite <- negb_andb, Hmissing. reflexivity.
  - intros path parsed Hin Hroute Hbody Hn Hmissing.
    destruct Hin as [<- | [<- | []]]; unfold fetch.
    + rewrite (route_elsewhere _ _ _ "/api/chat" "POST" Hroute eq_refl).
      rewrite (route_elsewhere _ _ _ "/" "GET" Hroute eq_refl).
      rewrite (route_elsewhere _ _ _ "/api/results" "GET" Hroute eq_refl).
      rewrite (route_elsewhere _ _ _ "/api/debug" "GET" Hroute eq_refl).
      rewrite Hroute, Hbody.
      erewrite bind_returned by reflexivity.
      erewrite bind_returned by (rewrite Hn; reflexivity).
      cbv zeta. rewrite Hmissing. reflexivity.
    + rewrite (route_elsewhere _ _ _ "/api/chat" "POST" Hroute eq_refl).
      rewrite (route_elsewhere _ _ _ "/" "GET" Hroute eq_refl).
      rewrite (route_elsewhere _ _ _ "/api/results" "GET" Hroute eq_refl).
      rewrite (route_elsewhere _ _ _ "/api/debug" "GET" Hroute eq_refl).
      rewrite (route_elsewhere _ _ _ "/api/end-call" "POST" Hroute eq_refl).
      rewrite Hroute, Hbody.
      erewrite bind_returned by reflexivity.
      erewrite bind_returned by (rewrite Hn; reflexivity).
      cbv zeta. rewrite Hmissing. reflexivity.
  - intros path Hin Hroute Hmissing.
    destruct Hin as [<- | [<- | []]]; unfold fetch.
    + rewrite (route_elsewhere _ _ _ "/api/chat" "POST" Hroute eq_refl).
      rewrite (route_elsewhere _ _ _ "/" "GET" Hroute eq_refl).
      rewrite Hroute.
      destruct (searchParams_sessionId request) as [[|c sid]|];
        [reflexivity | discriminate Hmissing | reflexivity].
    + rewrite (route_elsewhere _ _ _ "/api/chat" "POST" Hroute eq_refl).
      rewrite (route_elsewhere _ _ _ "/" "GET" Hroute eq_refl).
      rewrite (route_elsewhere _ _ _ "/api/results" "GET" Hroute eq_refl).
      rewrite Hroute.
      destruct (searchParams_sessionId request) as [[|c sid]|];
        [reflexivity | discriminate Hmissing | reflexivity].
Qed.

(** A chat request with an empty message. *)
Lemma missing_fields_are_rejected_witness :
  fetch (post "/api/chat" (VObj [(js "sessionId", VStr (js "acme"));
                                 (js "message", VStr [])]))
    quiet_platform acme_isolate
  = (Returned (Response_text (js "Missing sessionId or message") 400), acme_isolate).
Proof.
  exact (proj1 (missing_fields_are_rejected
                  (post "/api/chat" (VObj [(js "sessionId", VStr (js "acme"));
                                           (js "message", VStr [])]))
                  quiet_platform acme_isolate)
           _ eq_refl eq_refl eq_refl eq_refl).
Defined.

(** X21: a request to one of the three routes that read a JSON body,
    whose body cannot be read as JSON or is [null], is not answered at
    all: the handler throws (there is no 400 for it), and nothing
    changes. *)
Theorem unreadable_body_is_not_answered request env sys path :
  In path BODY_ROUTES ->
  route request path "POST" = true ->
  body_unreadable request = true ->
  fetch request env sys = (Thrown, sys).
Proof.
  intros Hin Hroute Hbody. unfold body_unreadable in Hbody.
  destruct Hin as [<- | [<- | [<- | []]]]; unfold fetch.
  - rewrite Hroute.
    destruct (request_body request) as [v|]; [ | reflexivity ].
    erewrite bind_returned by reflexivity. unfold bind. now rewrite Hbody.
  - rewrite (route_elsewhere _ _ _ "/api/chat" "POST" Hroute eq_refl).
    rewrite (route_elsewhere _ _ _ "/" "GET" Hroute eq_refl).
    rewrite (route_elsewhere _ _ _ "/api/results" "GET" Hroute eq_refl).
    rewrite (route_elsewhere _ _ _ "/api/debug" "GET" Hroute eq_refl).
    rewrite Hroute.
    destruct (request_body request) as [v|]; [ | reflexivity ].
    erewrite bind_returned by reflexivity. unfold bind. now rewrite Hbody.
  - rewrite (route_elsewhere _ _ _ "/api/chat" "POST" Hroute eq_refl).
    rewrite (route_elsewhere _ _ _ "/" "GET" Hroute eq_refl).
    rewrite (route_elsewhere _ _ _ "/api/results" "GET" Hroute eq_refl).
    rewrite (route_elsewhere _ _ _ "/api/debug" "GET" Hroute eq_refl).
    rewrite (route_elsewhere _ _ _ "/api/end-call" "POST" Hroute eq_refl).
    rewrite Hroute.
    destruct (request_body request) as [v|]; [ | reflexivity ].
    erewrite bind_returned by reflexivity. unfold bind. now rewrite Hbody.
Qed.

(** [POST /api/reset] with the body [null]. *)
Lemma unreadable_body_is_not_answered_witness :
  fetch (post "/api/reset" VNull) quiet_platform acme_isolate
  = (Thrown, acme_isolate).
Proof.
  apply (unreadable_body_is_not_answered _ _ _ "/api/reset").
  - simpl. tauto.
  - vm_compute. reflexivity.
  - reflexivity.
Defined.

(** X22: [POST /api/end-call] with a truthy [sessionId] only records a
    workflow instance for it and answers with the instance's id: the
    session need not exist, no object's storage is read or written, and
    every session's state (its [final] included) is what it was. *)
Theorem end_call_defers_finalization request env sys parsed :
  route request "/api/end-call" "POST" = true ->
  request_body request = Some parsed ->
  truthy (get_prop parsed (js "sessionId")) = true ->
  exists sys',
    fetch request env sys
    = (Returned (Response_json (VObj [(js "ok", VBool true);
                                      (js "workflowId", VStr (instance_id env))])),
       sys')
    /\ FINALIZE_CALL sys' = get_prop parsed (js "sessionId") :: FINALIZE_CALL sys
    /\ objects sys' = objects sys
    /\ DEFAULT_STATE_messages sys' = DEFAULT_STATE_messages sys
    /\ forall self, persisted self sys' = persisted self sys.
Proof.
  intros Hroute Hbody Hsid.
  assert (Hn : nullish parsed = false) by now apply (truthy_prop_not_nullish _ _ Hsid).
  eexists. split.
  - unfold fetch.
    rewrite (route_elsewhere _ _ _ "/api/chat" "POST" Hroute eq_refl).
    rewrite (route_elsewhere _ _ _ "/" "GET" Hroute eq_refl).
    rewrite (route_elsewhere _ _ _ "/api/results" "GET" Hroute eq_refl).
    rewrite (route_elsewhere _ _ _ "/api/debug" "GET" Hroute eq_refl).
    rewrite Hroute, Hbody.
    erewrite bind_returned by reflexivity.
    erewrite bind_returned by (rewrite Hn; reflexivity).
    cbv zeta. rewrite Hsid. reflexivity.
  - repeat split.
Qed.

(** Ending the call of a session nobody has talked to. *)
Lemma end_call_defers_finalization_witness :
  exists sys',
    fetch (post "/api/end-call" (VObj [(js "sessionId", VStr (js "nobody"))]))
      quiet_platform acme_isolate
    = (Returned (Response_json (VObj [(js "ok", VBool true);
                                      (js "workflowId", VStr (js "instance-1"))])),
       sys')
    /\ FINALIZE_CALL sys' = [VStr (js "nobody")]
    /\ objects sys' = objects acme_isolate.
Proof.
  destruct (end_call_defers_finalization
              (post "/api/end-call" (VObj [(js "sessionId", VStr (js "nobody"))]))
              quiet_platform acme_isolate _ eq_refl eq_refl eq_refl)
    as (sys' & E & Hf & Ho & _).
  exists sys'. split; [exact E | ]. split; [exact Hf | exact Ho].
Defined.

(** X23: [GET /api/results] and [GET /api/debug] with a non-empty
    [sessionId] answer alike, with the state [load] makes of the
    session's storage: they change nothing, depend on nothing the
    platform does, and a session that has stored nothing is answered
    with the default state (and the shared default array as its
    history), not with an error. *)
Theorem results_reads_the_loaded_state request env sys path sid :
  In path QUERY_ROUTES ->
  route request path "GET" = true ->
  searchParams_sessionId request = Some sid -> sid <> [] ->
  fetch request env sys
  = (Returned (Response_json
                 (AgentState_value (deref sys (messages (persisted sid sys)))
                    (persisted sid sys))), sys)
  /\ (objects sys !! sid = None ->
      fst (fetch request env sys)
      = Returned (Response_json
                    (AgentState_value (DEFAULT_STATE_messages sys) DEFAULT_STATE))).
Proof.
  intros Hin Hroute Hsid Hne.
  assert (E : fetch request env sys
              = (Returned (Response_json
                             (AgentState_value
                                (deref sys (messages (persisted sid sys)))
                                (persisted sid sys))), sys)).
  { destruct sid as [|c sid]; [contradiction | ].
    destruct Hin as [<- | [<- | []]]; unfold fetch.
    - rewrite (route_elsewhere _ _ _ "/api/chat" "POST" Hroute eq_refl).
      rewrite (route_elsewhere _ _ _ "/" "GET" Hroute eq_refl).
      rewrite Hroute, Hsid. reflexivity.
    - rewrite (route_elsewhere _ _ _ "/api/chat" "POST" Hroute eq_refl).
      rewrite (route_elsewhere _ _ _ "/" "GET" Hroute eq_refl).
      rewrite (route_elsewhere _ _ _ "/api/results" "GET" Hroute eq_refl).
      rewrite Hroute, Hsid. reflexivity. }
  split; [exact E | ].
  intros Hnone. rewrite E. unfold persisted. rewrite Hnone. reflexivity.
Qed.

(** The results of the sample session, read through the debug route. *)
Lemma results_reads_the_loaded_state_witness :
  fetch debug_request quiet_platform acme_isolate
  = (Returned (Response_json
                 (AgentState_value
                    (deref acme_isolate
                       (messages (persisted (js "acme") acme_isolate)))
                    (persisted (js "acme") acme_isolate))), acme_isolate).
Proof.
  assert (Hne : js "acme" <> []) by (vm_compute; discriminate).
  apply (proj1 (results_reads_the_loaded_state debug_request quiet_platform
                  acme_isolate "/api/debug" (js "acme")
                  (or_intror (or_introl eq_refl)) eq_refl eq_refl Hne)).
Defined.

(** ** The workflow: when it completes, and what it changes *)

(** A run that returned passed every one of its checks. *)
Lemma run_returned_checks sessionId env sys r sys' :
  FinalizeCallWorkflow_run sessionId env sys = (Returned r, sys') ->
  exists self sumResp actResp emailResp,
    sessionId = VStr self /\ self <> []
    /\ env = {| ai_summary := AIReturns sumResp; ai_actions := AIReturns actResp;
                ai_email := AIReturns emailResp; final_put_ok := true |}
    /\ forallb (fun m => renders (content m))
         (deref sys (messages (persisted self sys))) = true
    /\ actionPrompt_builds (parse_list sumResp (js "summaryBullets")) = true
    /\ emailPrompt_builds (parse_list sumResp (js "summaryBullets"))
         (parse_list actResp (js "actionItems")) = true.
Proof.
  intros H. unfold FinalizeCallWorkflow_run in H.
  do 11 step H.
  apply guard_inv in E as [Ht ->].
  apply idFromName_inv in E0 as [-> ->].
  rewrite state_fetch in E1. inversion E1; subst a1 sys2. clear E1.
  inversion E2; subst a2 sys3. clear E2.
  apply guard_inv in E3 as [Hc ->].
  apply AI_run_inv in E4 as [E4 ->].
  apply guard_inv in E5 as [Ha ->].
  apply AI_run_inv in E6 as [E6 ->].
  apply guard_inv in E7 as [He ->].
  apply AI_run_inv in E8 as [E8 ->].
  rewrite save_final_fetch in E9.
  apply save_final_returned in E9 as (b & _ & _ & Hput & _).
  simpl in Hput.
  apply andb_true_iff in Hc as [_ Hc]. rewrite convo_builds_state in Hc.
  exists a0, a4, a6, a8.
  split; [reflexivity | ].
  split; [intros ->; discriminate Ht | ].
  split; [destruct env; simpl in *; congruence | ].
  auto.
Qed.





(** X26: the defensive parse of the action items checks that the value
    is an array, not what the array holds: when one of the items the
    model returned is [null], building the email prompt throws outside
    any [try], so the run aborts and no [final] is stored, even though
    the answer parsed. *)
Theorem finalize_aborts_on_null_action_item sessionId env sys actResp a :
  ai_actions env = AIReturns actResp ->
  In a (parse_list actResp (js "actionItems")) -> nullish a = true ->
  fst (FinalizeCallWorkflow_run sessionId env sys) = Thrown
  /\ objects (snd (FinalizeCallWorkflow_run sessionId env sys)) = objects sys.
Proof.
  intros Hact Hin Hnull.
  destruct (FinalizeCallWorkflow_run sessionId env sys) as [[r|] sys'] eqn:E.
  - exfalso.
    destruct (run_returned_checks _ _ _ _ _ E)
      as (self & sumResp & actResp' & emailResp & _ & _ & -> & _ & _ & He).
    simpl in Hact. inversion Hact; subst actResp'.
    apply andb_true_iff in He as [_ He].
    rewrite forallb_forall in He. specialize (He a Hin).
    rewrite Hnull in He. discriminate He.
  - split; [reflexivity | ].
    exact (proj1 (run_keeps_storage_on_throw _ _ _ _ E)).
Qed.

(** The model answers [{ "actionItems": [null] }] in step 2. *)
Lemma finalize_aborts_on_null_action_item_witness :
  parse_list null_action (js "actionItems") = [VNull]
  /\ fst (FinalizeCallWorkflow_run (VStr (js "acme"))
            {| ai_summary := AIReturns eight_bullets;
               ai_actions := AIReturns null_action;
               ai_email := AIReturns email_text; final_put_ok := true |}
            acme_isolate) = Thrown.
Proof.
  assert (Hp : parse_list null_action (js "actionItems") = [VNull])
    by (vm_compute; reflexivity).
  split; [exact Hp | ].
  apply (finalize_aborts_on_null_action_item (VStr (js "acme"))
           {| ai_summary := AIReturns eight_bullets;
              ai_actions := AIReturns null_action;
              ai_email := AIReturns email_text; final_put_ok := true |}
           acme_isolate null_action VNull eq_refl).
  - rewrite Hp. left. reflexivity.
  - reflexivity.
Defined.

(** X27: the list the workflow reads off an answer in which the object
    is wrapped in prose (no opening brace before it, no closing brace
    after it): the array under the key, and no items when the object
    has no such key or holds something else than an array there. *)
Theorem parse_list_of_wrapped_object resp key before middle after props :
  normalizeAIText resp = before ++ js "{" ++ middle ++ js "}" ++ after ->
  ~ In 123%N before -> ~ In 125%N after ->
  JSON_parse (js "{" ++ middle ++ js "}") = Some (VObj props) ->
  parse_list resp key
  = match own_property props key with
    | Some (VArr items) => items
    | _ => []
    end.
Proof.
  intros Hraw Hb Ha Hparse.
  unfold parse_list, braced_json. cbv zeta.
  rewrite Hraw, (extractJsonObject_span before middle after Hb Ha), Hparse.
  cbn [nullish get_prop]. unfold array_or.
  destruct (own_property props key) as [[]|]; reflexivity.
Qed.

(** The eight bullets of the sample answer, which opens with prose. *)
Lemma parse_list_of_wrapped_object_witness :
  length (parse_list eight_bullets (js "summaryBullets")) = 8%nat.
Proof.
  rewrite (parse_list_of_wrapped_object eight_bullets (js "summaryBullets")
             (js "Here you go: ")
             (quoted "summaryBullets" ++ js ":["
              ++ quoted "b1" ++ js "," ++ quoted "b2" ++ js "," ++ quoted "b3"
              ++ js "," ++ quoted "b4" ++ js "," ++ quoted "b5" ++ js ","
              ++ quoted "b6" ++ js "," ++ quoted "b7" ++ js "," ++ quoted "b8"
              ++ js "]")
             []
             [(js "summaryBullets",
               VArr [VStr (js "b1"); VStr (js "b2"); VStr (js "b3"); VStr (js "b4");
                     VStr (js "b5"); VStr (js "b6"); VStr (js "b7"); VStr (js "b8")])]).
  - reflexivity.
  - vm_compute. reflexivity.
  - not_in.
  - intros [].
  - vm_compute. reflexivity.
Defined.

(** ** The context window *)

(** A chat turn that completes rendered every message of its window:
    the last ten of the history with the new message at its end. *)
Lemma chat_pipeline_returned_window self req env sys resp sys' :
  chat_pipeline self req env sys = (Returned resp, sys') ->
  exists parsed_body,
    json_body req = Some parsed_body
    /\ forallb (fun m => renders (content m))
         (lastN (deref sys (messages (persisted self sys))
                 ++ [{| role := user;
                        content := get_prop parsed_body (js "message") |}]) 10)
       = true.
Proof.
  intros H. unfold chat_pipeline in H. do 11 step H.
  apply request_json_inv in E as [Eb ->].
  apply destructure_inv in E0 as (Hn & -> & ->).
  apply gets_inv in E1 as [-> ->].
  apply push_fields in E2 as (P1 & _).
  apply gets_inv in E3 as [-> ->].
  apply guard_inv in E4 as [Hw _].
  exists a. split; [exact Eb | ].
  cbn [messages] in Hw. rewrite P1 in Hw. exact Hw.
Qed.

(** The last nine messages of a history are in the window of the next
    turn. *)
Lemma lastN_window {A : Type} (history : list A) (x m : A) :
  In m (lastN history 9) -> In m (lastN (history ++ [x]) 10).
Proof.
  rewrite !lastN_skipn by lia. intros H.
  rewrite length_app. cbn [length].
  replace (length history + 1 - Z.to_nat 10)%nat
    with (length history - Z.to_nat 9)%nat by lia.
  rewrite skipn_app. apply in_or_app. now left.
Qed.

Lemma lastN_In {A : Type} (l : list A) (n : Z) (m : A) :
  0 <= n -> In m (lastN l n) -> In m l.
Proof.
  intros Hn H. rewrite lastN_skipn in H by exact Hn.
  rewrite <- (firstn_skipn (length l - Z.to_nat n) l).
  apply in_or_app. now right.
Qed.

(** A chat request on a history with an unrenderable message in its
    last nine throws. *)
Lemma chat_pipeline_blocked self req env sys stored history m :
  objects sys !! self = Some stored -> stored_messages stored = Some history ->
  In m (lastN history 9) -> renders (content m) = false ->
  fst (chat_pipeline self req env sys) = Thrown.
Proof.
  intros Ho Hs Hin Hbad.
  destruct (chat_pipeline self req env sys) as [[resp|] sys'] eqn:E;
    [ | reflexivity ].
  exfalso.
  destruct (chat_pipeline_returned_window _ _ _ _ _ _ E) as (b & _ & Hw).
  unfold persisted in Hw. rewrite Ho in Hw. cbn [from_storage messages] in Hw.
  rewrite Hs in Hw. cbn [deref] in Hw.
  rewrite forallb_forall in Hw.
  specialize (Hw m (lastN_window history _ m Hin)).
  congruence.
Qed.

(** X28: a session whose stored history has, among its last nine
    messages, one whose content cannot be rendered in a template
    literal (an object with a [toString] property, which a model answer
    can put into [reply]) is blocked: every later chat request, whatever
    it carries and whatever the platform does, gets the fallback answer
    and stores nothing, so no sequence of chat requests changes the
    storage, and a finalization run on the session throws. *)
Theorem unrenderable_history_blocks_session self sys stored history m :
  objects sys !! self = Some stored -> stored_messages stored = Some history ->
  In m (lastN history 9) -> renders (content m) = false ->
  (forall req env,
      fst (chat self req env sys)
      = Returned (Response_json (fallback_body (dealMemory (persisted self sys))))
      /\ objects (snd (chat self req env sys)) = objects sys)
  /\ (forall reqs, objects (chat_many self reqs sys) = objects sys)
  /\ (forall env, fst (FinalizeCallWorkflow_run (VStr self) env sys) = Thrown).
Proof.
  intros Ho Hs Hin Hbad. split; [ | split ].
  - intros req env. apply chat_on_throw.
    exact (chat_pipeline_blocked self req env sys stored history m Ho Hs Hin Hbad).
  - intros reqs. revert sys Ho.
    induction reqs as [|[req env] reqs IH]; intros sys Ho; [reflexivity | ].
    cbn [chat_many fold_left fst snd].
    assert (E : objects (snd (chat self req env sys)) = objects sys).
    { apply chat_on_throw.
      exact (chat_pipeline_blocked self req env sys stored history m Ho Hs Hin Hbad). }
    change (objects (chat_many self reqs (snd (chat self req env sys)))
            = objects sys).
    rewrite IH by (now rewrite E). exact E.
  - intros env.
    destruct (FinalizeCallWorkflow_run (VStr self) env sys) as [[r|] sys'] eqn:E;
      [ | reflexivity ].
    exfalso.
    destruct (run_returned_checks _ _ _ _ _ E)
      as (self' & sumResp & actResp & emailResp & Hself & _ & _ & Hh & _).
    inversion Hself; subst self'.
    unfold persisted in Hh. rewrite Ho in Hh. cbn [from_storage messages] in Hh.
    rewrite Hs in Hh. cbn [deref] in Hh.
    rewrite forallb_forall in Hh.
    specialize (Hh m (lastN_In history 9 m ltac:(lia) Hin)).
    congruence.
Qed.

(** A first turn in which the model's [reply] is such an object
    completes and stores it; the next request is answered by the
    fallback, although the platform is then in order. *)
Lemma unrenderable_history_blocks_session_witness :
  exists resp sys1,
    chat_pipeline (js "first") (chat_request "Hello")
      {| ai_reply := AIReturns object_reply; ai_memory := AIThrows; put_ok := true |}
      fresh_isolate = (Returned resp, sys1)
    /\ fst (chat (js "first") (chat_request "Hello again") plain_reply sys1)
       = Returned (Response_json (fallback_body DEFAULT_DEAL_MEMORY)).
Proof.
  destruct (chat_pipeline (js "first") (chat_request "Hello")
              {| ai_reply := AIReturns object_reply; ai_memory := AIThrows;
                 put_ok := true |} fresh_isolate) as [[resp|] sys1] eqn:E;
    [ | vm_compute in E; discriminate E ].
  exists resp, sys1. split; [reflexivity | ].
  assert (Es : sys1 = snd (chat_pipeline (js "first") (chat_request "Hello")
                             {| ai_reply := AIReturns object_reply;
                                ai_memory := AIThrows; put_ok := true |}
                             fresh_isolate)) by (now rewrite E).
  set (bad := {| role := assistant;
                 content := VObj [(js "toString", VInt 1)] |}).
  set (history := [{| role := user; content := VStr (js "Hello") |}; bad]).
  set (stored := {| stored_messages := Some history;
                    stored_dealMemory := Some (all_fields DEFAULT_DEAL_MEMORY);
                    stored_rollingSummary := VStr [];
                    stored_userTurnCount := Some 1;
                    stored_final := VUndefined |}).
  assert (Ho : objects sys1 !! js "first" = Some stored)
    by (rewrite Es; vm_compute; reflexivity).
  assert (Hin : In bad (lastN history 9)) by (vm_compute; tauto).
  destruct (unrenderable_history_blocks_session (js "first") sys1 stored history
              bad Ho eq_refl Hin eq_refl) as (Hchat & _).
  destruct (Hchat (chat_request "Hello again") plain_reply) as [Ea _].
  rewrite Ea. unfold persisted. rewrite Ho. vm_compute. reflexivity.
Defined.

(** ** First turns and the shared default array *)




